(** * Event recommender front end: a shallow embedding of the TypeScript sources

    The development follows the two React variants of the application:
    the card-rendering [App] (with [parseRecommendation], [handleSubmit] and
    the JSX of the cards) and [frontend/src/App.tsx] (with its own
    [handleSubmit] and the [localStorage] effects).

    JavaScript strings are sequences of UTF-16 code units; they are
    embedded as lists of [N].  Optional fields ([price?: string]) and the
    result of [Array.prototype.find] or of an optional chain [?.] are
    embedded as [option], [undefined] being [None]. *)

From Stdlib Require Import List NArith ZArith Bool Lia String Ascii DecimalString.
From Stdlib Require Import Floats.SpecFloat.
From stdpp Require Import gmap.
From Equations Require Import Equations.
Import ListNotations.

Local Open Scope N_scope.

(** ** JavaScript strings *)

Module JsString.

Definition jsstring := list N.

(** Literals: each character of an ASCII literal is one code unit. *)
Definition js (s : string) : jsstring :=
  List.map N_of_ascii (list_ascii_of_string s).
Arguments js s%_string.

(** [a === b] on strings *)
Fixpoint eqb (a b : jsstring) : bool :=
  match a, b with
  | [], [] => true
  | x :: a', y :: b' => (x =? y) && eqb a' b'
  | _, _ => false
  end.

(** [WhiteSpace] and [LineTerminator] of ECMA-262: the code units removed
    by [String.prototype.trim] and matched by the regular expression
    class [\s]. *)
Definition is_ws (c : N) : bool :=
  match c with
  | 9 | 10 | 11 | 12 | 13 | 32 | 160 | 5760
  | 8232 | 8233 | 8239 | 8287 | 12288 | 65279 => true
  | _ => (8192 <=? c) && (c <=? 8202)
  end.

Fixpoint trimStart (s : jsstring) : jsstring :=
  match s with
  | [] => []
  | c :: s' => if is_ws c then trimStart s' else s
  end.

Fixpoint trimEnd (s : jsstring) : jsstring :=
  match s with
  | [] => []
  | c :: s' =>
      match trimEnd s' with
      | [] => if is_ws c then [] else [c]
      | t => c :: t
      end
  end.

(** [s.trim()] *)
Definition trim (s : jsstring) : jsstring := trimEnd (trimStart s).

(** [s.startsWith(p)] *)
Fixpoint startsWith (p s : jsstring) : bool :=
  match p, s with
  | [], _ => true
  | _ :: _, [] => false
  | a :: p', b :: s' => (a =? b) && startsWith p' s'
  end.

(** [s.split(sep)] for a separator of one code unit, as in
    [text.split('\n')] and [value.split(',')]. *)
Fixpoint split (sep : N) (s : jsstring) : list jsstring :=
  match s with
  | [] => [[]]
  | c :: s' =>
      if c =? sep then [] :: split sep s'
      else match split sep s' with
           | [] => [[c]]
           | piece :: pieces => (c :: piece) :: pieces
           end
  end.

(** [s.replace(pat, rep)] for a string pattern: the first occurrence of
    [pat] is replaced.  Every replacement text in the sources is the empty
    string, so the [$]-patterns of the replacement play no role. *)
Fixpoint replace (pat rep s : jsstring) {struct s} : jsstring :=
  if startsWith pat s then rep ++ skipn (length pat) s
  else match s with
       | [] => []
       | c :: s' => c :: replace pat rep s'
       end.

(** [s.replace(/^-\s*/, '')]: the pattern is anchored at the start of the
    string (no [m] flag) and [\s*] is greedy. *)
Definition replace_leading_dash (s : jsstring) : jsstring :=
  match s with
  | 45 :: s' => trimStart s'
  | _ => s
  end.

(** [v || d] for [v : string | undefined]: the empty string is falsy. *)
Definition or_default (v : option jsstring) (d : jsstring) : jsstring :=
  match v with
  | Some (c :: s) => c :: s
  | Some [] | None => d
  end.

(** Test blocks: lines joined by a line feed. *)
Fixpoint unlines (ls : list jsstring) : jsstring :=
  match ls with
  | [] => []
  | [l] => l
  | l :: ls' => l ++ 10 :: unlines ls'
  end.

End JsString.
Import JsString.

(** ** Numbers *)

(** Numbers are IEEE 754 binary64 values. *)
Definition number := spec_float.
Definition mul (x y : number) : number := SFmul 53 1024 x y.

(** The literal [100]. *)
Definition hundred : number := S754_finite false 7036874417766400 (-46).

(** The numbers 1, and 0.876 as the nearest binary64 value. *)
Definition one : number := S754_finite false 4503599627370496 (-52).
Definition score_0_876 : number := S754_finite false 7890306547153109 (-53).

(** [ToBoolean] on a number. *)
Definition truthy_number (x : number) : bool :=
  match x with
  | S754_zero _ | S754_nan => false
  | _ => true
  end.

(** The integer nearest to [m * 2^e], the larger one when two are as near
    (step 9.a of [Number.prototype.toFixed] with [fractionDigits = 0]). *)
Definition nearest_integer (m : positive) (e : Z) : Z :=
  match e with
  | Zneg p => (Zpos m + 2 ^ (Zpos p - 1)) / 2 ^ Zpos p
  | _ => Zpos m * 2 ^ e
  end%Z.

(** [m * 2^e >= 10^21] *)
Definition at_least_1e21 (m : positive) (e : Z) : bool :=
  match e with
  | Zneg p => (10 ^ 21 * 2 ^ Zpos p <=? Zpos m)%Z
  | _ => (10 ^ 21 <=? Zpos m * 2 ^ e)%Z
  end.

Definition decimal (n : Z) : jsstring :=
  js (DecimalString.NilZero.string_of_uint (N.to_uint (Z.to_N n))).

(** *** [Number::toString] from [10^21] on

    The text has the fewest digits that still read back as the same number
    (step 5 of [Number::toString], with the choice of the nearest such
    decimal that engines make), in exponent notation. *)

(** The integers [r] that binary64 rounds to [m * 2^e], a tie going to the
    even mantissa; [m] has 53 bits and [e >= 1], as in every binary64
    value from [10^21] on. *)
Definition rounds_to (m : positive) (e : Z) (r : Z) : bool :=
  (let x := Zpos m * 2 ^ e in
   let below := if Zpos m =? 2 ^ 52 then 2 ^ (e - 1) else 2 ^ e in
   let above := 2 ^ e in
   if Z.even (Zpos m)
   then (2 * x - below <=? 2 * r) && (2 * r <=? 2 * x + above)
   else (2 * x - below <? 2 * r) && (2 * r <? 2 * x + above))%Z.

Definition digit_count (n : Z) : Z := Z.of_nat (List.length (decimal n)).

(** The pairs [(s, n)] with [10^(k-1) <= s < 10^k] and [s * 10^(n-k)]
    rounding to [m * 2^e]: next to [m * 2^e] on either side. *)
Definition candidates (m : positive) (e : Z) (k : Z) : list (Z * Z) :=
  (let x := Zpos m * 2 ^ e in
   flat_map
     (fun n =>
        let p := 10 ^ (n - k) in
        List.filter
          (fun sn => (10 ^ (k - 1) <=? fst sn) && (fst sn <? 10 ^ k)
                     && rounds_to m e (fst sn * p))
          [(x / p, n); (x / p + 1, n)])
     [digit_count x; digit_count x + 1])%Z.

(** Of two candidates the one nearer to [x], the even [s] when they are as
    near. *)
Definition nearer (x k : Z) (a b : Z * Z) : Z * Z :=
  (let distance sn := Z.abs (fst sn * 10 ^ (snd sn - k) - x) in
   if distance a <? distance b then a
   else if distance b <? distance a then b
   else if Z.even (fst a) then a else b)%Z.

Definition nearest_candidate (x k : Z) (l : list (Z * Z)) : option (Z * Z) :=
  match l with
  | [] => None
  | a :: l' => Some (fold_left (nearer x k) l' a)
  end.

(** The first [k] of [ks] that has a candidate. *)
Fixpoint shortest (m : positive) (e : Z) (ks : list Z) : option (Z * Z) :=
  match ks with
  | [] => None
  | k :: ks' =>
      match nearest_candidate (Zpos m * 2 ^ e) k (candidates m e k) with
      | Some sn => Some sn
      | None => shortest m e ks'
      end
  end.

(** [d.ddde+NN], or [de+NN] for a single digit: [n >= 22] here, so the
    exponent [n - 1] is written with a plus sign. *)
Definition exponent_notation (m : positive) (e : Z) : jsstring :=
  let x := (Zpos m * 2 ^ e)%Z in
  let ks := map Z.of_nat (seq 1 (Z.to_nat (digit_count x))) in
  let '(s, n) := match shortest m e ks with
                 | Some sn => sn
                 | None => (x, digit_count x)
                 end in
  match decimal s with
  | [] => []
  | [d] => d :: js "e+" ++ decimal (n - 1)
  | d :: ds => d :: 46 :: ds ++ js "e+" ++ decimal (n - 1)
  end.

(** [x.toFixed(0)]: below [10^21] the nearest integer in decimal digits,
    from [10^21] on what [Number::toString] gives. *)
Definition toFixed0 (x : number) : jsstring :=
  match x with
  | S754_nan => js "NaN"
  | S754_infinity s => if s then js "-Infinity" else js "Infinity"
  | S754_zero _ => js "0"
  | S754_finite s m e =>
      (if s then js "-" else [])
      ++ (if at_least_1e21 m e then exponent_notation m e
          else decimal (nearest_integer m e))
  end.
(** ** Values, exceptions and completions *)

(** The values a parsed JSON body can hold, and [undefined]. *)
#[local] Unset Elimination Schemes.
Inductive jsval :=
| JUndefined
| JNull
| JBool (b : bool)
| JNumber (x : number)
| JString (s : jsstring)
| JArray (items : list jsval)
| JObject (fields : list (jsstring * jsval)).
#[local] Set Elimination Schemes.

(** What a [throw] carries: an [Error] object (a [TypeError] is one) with its
    [message], or some other value. *)
Inductive exn :=
| Error (message : jsstring)
| NonError (v : jsval).

Inductive completion (A : Type) :=
| Normal (a : A)
| Throw (e : exn).
Arguments Normal {A} a.
Arguments Throw {A} e.

(** The [TypeError] of a property read on [undefined] or [null] (the text is
    the one V8 gives; no handler in the sources looks into it). *)
Definition cannot_read (what key : jsstring) : exn :=
  Error (js "Cannot read properties of " ++ what ++ js " (reading '" ++ key ++ js "')").

Fixpoint assoc (key : jsstring) (fields : list (jsstring * jsval)) : option jsval :=
  match fields with
  | [] => None
  | (k, v) :: fields' => if eqb k key then Some v else assoc key fields'
  end.

(** [v.key] for a key that is neither [length] nor an index: only a plain
    object can hold it. *)
Definition get_field (v : jsval) (key : jsstring) : completion jsval :=
  match v with
  | JUndefined => Throw (cannot_read (js "undefined") key)
  | JNull => Throw (cannot_read (js "null") key)
  | JObject fields =>
      Normal (match assoc key fields with Some x => x | None => JUndefined end)
  | _ => Normal JUndefined
  end.

(** [v.length === 0] *)
Definition length_is_zero (v : jsval) : completion bool :=
  match v with
  | JUndefined => Throw (cannot_read (js "undefined") (js "length"))
  | JNull => Throw (cannot_read (js "null") (js "length"))
  | JString s => Normal (match s with [] => true | _ => false end)
  | JArray items => Normal (match items with [] => true | _ => false end)
  | JObject fields =>
      Normal (match assoc (js "length") fields with
              | Some (JNumber (S754_zero _)) => true
              | _ => false
              end)
  | _ => Normal false
  end.

(** ** Handlers: state and exceptions

    A handler runs on the component state and either completes or throws;
    the state it leaves is kept in both cases. *)
Module Eff.
Section WithState.
Context {St : Type}.

Definition M (A : Type) : Type := St -> completion A * St.

Definition ret {A} (a : A) : M A := fun st => (Normal a, st).

Definition bind {A B} (m : M A) (k : A -> M B) : M B :=
  fun st =>
    match m st with
    | (Normal a, st') => k a st'
    | (Throw e, st') => (Throw e, st')
    end.

(** A pure computation that may throw, e.g. the result of an [await]. *)
Definition lift {A} (c : completion A) : M A := fun st => (c, st).

Definition get : M St := fun st => (Normal st, st).
Definition modify (f : St -> St) : M unit := fun st => (Normal tt, f st).

(** [try { body } catch (err) { handler err }] *)
Definition try_catch {A} (body : M A) (handler : exn -> M A) : M A :=
  fun st =>
    match body st with
    | (Normal a, st') => (Normal a, st')
    | (Throw e, st') => handler e st'
    end.

(** [try { body } finally { fin }]: [fin] runs on every way out of
    [body]; when [fin] throws, its exception replaces the completion of
    [body]. *)
Definition try_finally {A} (body : M A) (fin : M unit) : M A :=
  fun st =>
    match body st with
    | (c, st') =>
        match fin st' with
        | (Normal _, st'') => (c, st'')
        | (Throw e, st'') => (Throw e, st'')
        end
    end.
End WithState.

Module Notations.
Notation "x <- m ;; k" := (bind m (fun x => k))
  (at level 100, m at next level, right associativity).
Notation "m ;; k" := (bind m (fun _ => k))
  (at level 100, right associativity).
End Notations.
End Eff.
Import Eff.Notations.

(** ** The card variant of the application *)

Module CardApp.

(** [interface Recommendation] *)

Record Recommendation := {
  title : jsstring;
  description : jsstring;
  date : jsstring;
  location : jsstring;
  price : option jsstring;
  categories : option (list jsstring);
  url : option jsstring;
  relevance_score : option number;
  reasoning : option jsstring;
  personalization : option jsstring
}.

(** [lines.find(line => line.trim().startsWith(label))] *)
Definition find_label (label : jsstring) (lines : list jsstring) : option jsstring :=
  List.find (fun line => startsWith label (trim line)) lines.

(** [lines.find(...)?.replace(label, '').trim()] *)
Definition labelled (label : jsstring) (lines : list jsstring) : option jsstring :=
  option_map (fun line => trim (replace label [] line)) (find_label label lines).

(** [text.split('\n').filter(line => line.trim() !== '')] *)
Definition non_empty_lines (text : jsstring) : list jsstring :=
  List.filter (fun line => negb (eqb (trim line) [])) (split 10 text).

Definition parseRecommendation (text : jsstring) : completion (option Recommendation) :=
  let lines := non_empty_lines text in
  if (length lines <? 2)%nat then Normal None
  else
    match nth_error lines 0 with
    | None => Throw (cannot_read (js "undefined") (js "replace"))
    | Some line0 =>
        let title := trim (replace_leading_dash line0) in
        let description :=
          or_default (labelled (js "Description:") lines) (js "No description available") in
        let location :=
          or_default (labelled (js "Location:") lines) (js "Location not specified") in
        let date :=
          or_default (labelled (js "Date:") lines) (js "Date not specified") in
        let price := labelled (js "Price:") lines in
        let categories :=
          option_map (fun v => List.map trim (split 44 v))
                     (labelled (js "Categories:") lines) in
        Normal (Some {| title := title;
                        description := description;
                        date := date;
                        location := location;
                        price := price;
                        categories := categories;
                        url := None;
                        relevance_score := None;
                        reasoning := None;
                        personalization := None |})
    end.

(** *** Rendering of a card *)

(** [new Set(iterable)]: a set keeps its elements in insertion order, and
    adding a value that it already holds changes nothing.  The set is
    embedded as the list of its elements in that order. *)
Definition Set_add (s : list jsstring) (x : jsstring) : list jsstring :=
  if existsb (eqb x) s then s else s ++ [x].

Definition new_Set (values : list jsstring) : list jsstring :=
  fold_left Set_add values [].

Definition Array_from (s : list jsstring) : list jsstring := s.

(** [{rec.categories && (... Array.from(new Set(rec.categories)).map(...))}]:
    the texts of the [span] tags, or nothing when the field is absent. *)
Definition category_tags (rec : Recommendation) : option (list jsstring) :=
  option_map (fun cats => Array_from (new_Set cats)) (categories rec).

(** What React puts on the page for one JSX child. *)
Inductive rendered :=
| Nothing
| TextNode (text : option jsstring)
| Element (text : jsstring).

(** [String(x)] for the two falsy numbers, which React renders as text. *)
Definition falsy_number_text (x : number) : option jsstring :=
  match x with
  | S754_zero _ => Some (js "0")
  | S754_nan => Some (js "NaN")
  | _ => None
  end.

(** [{rec.relevance_score && (<div>... Relevance:
    {(rec.relevance_score * 100).toFixed(0)}%</div>)}]: [a && b] is [a] when
    [a] is falsy; React renders nothing for [undefined] and the digits of a
    number. *)
Definition relevance_badge (rec : Recommendation) : rendered :=
  match relevance_score rec with
  | None => Nothing
  | Some score =>
      if truthy_number score
      then Element (js "Relevance: " ++ toFixed0 (mul score hundred) ++ js "%")
      else TextNode (falsy_number_text score)
  end.

(** *** Component state and the submit handler *)

Record AppState := {
  zipCode : jsstring;
  interests : jsstring;
  recommendations : list jsval;
  loading : bool;
  error : jsstring;
  userLocation : jsstring
}.

Definition setRecommendations (v : list jsval) : Eff.M unit :=
  Eff.modify (fun st =>
    {| zipCode := zipCode st; interests := interests st; recommendations := v;
       loading := loading st; error := error st; userLocation := userLocation st |}).

Definition setLoading (v : bool) : Eff.M unit :=
  Eff.modify (fun st =>
    {| zipCode := zipCode st; interests := interests st;
       recommendations := recommendations st;
       loading := v; error := error st; userLocation := userLocation st |}).

Definition setError (v : jsstring) : Eff.M unit :=
  Eff.modify (fun st =>
    {| zipCode := zipCode st; interests := interests st;
       recommendations := recommendations st;
       loading := loading st; error := v; userLocation := userLocation st |}).

(** The body of the request:
    [{ zip_code: zipCode, interests: interests.split(',').map(i => i.trim()) }]. *)
Record RequestBody := {
  zip_code : jsstring;
  body_interests : list jsstring
}.

Definition request_body (st : AppState) : RequestBody :=
  {| zip_code := zipCode st;
     body_interests := List.map trim (split 44 (interests st)) |}.

(** [handleSubmit].  [post body] is how [await axios.post('/api/recommendations',
    body)] ends: with [response.data], or with the rejection thrown at the
    [await].  [e.preventDefault()] and the [console] calls leave the state
    alone and are left out. *)
Definition handleSubmit (post : RequestBody -> completion jsval) : Eff.M unit :=
  setLoading true ;;
  setError [] ;;
  setRecommendations [] ;;
  Eff.try_finally
    (Eff.try_catch
       (st <- Eff.get ;;
        data <- Eff.lift (post (request_body st)) ;;
        recs <- Eff.lift (get_field data (js "recommendations")) ;;
        match recs with
        | JArray items => setRecommendations items
        | _ => setError (js "Invalid response format from server")
        end)
       (fun _ => setError (js "Failed to fetch recommendations. Please try again.")))
    (setLoading false).

End CardApp.

(** ** JSON texts of string arrays

    [JSON.stringify] on an array of strings, and [JSON.parse] on the texts
    that denote one. *)

Module Json.

Definition is_leading_surrogate (c : N) : bool := (55296 <=? c) && (c <=? 56319).
Definition is_trailing_surrogate (c : N) : bool := (56320 <=? c) && (c <=? 57343).

(** Lower-case hexadecimal digit of a value below 16. *)
Definition hex_digit (n : N) : N := if n <? 10 then 48 + n else 87 + n.

(** [UnicodeEscape]: a backslash, [u] and four hexadecimal digits. *)
Definition unicode_escape (c : N) : jsstring :=
  [92; 117; hex_digit ((c / 4096) mod 16); hex_digit ((c / 256) mod 16);
   hex_digit ((c / 16) mod 16); hex_digit (c mod 16)].

(** One code point that is not a surrogate, as [QuoteJSONString] writes it. *)
Definition escape_unit (c : N) : jsstring :=
  if c =? 8 then [92; 98]
  else if c =? 9 then [92; 116]
  else if c =? 10 then [92; 110]
  else if c =? 12 then [92; 102]
  else if c =? 13 then [92; 114]
  else if c =? 34 then [92; 34]
  else if c =? 92 then [92; 92]
  else if c <? 32 then unicode_escape c
  else [c].

(** The code points of the string in turn: a surrogate pair is copied, a
    surrogate on its own is escaped. *)
Fixpoint quote_units (s : jsstring) : jsstring :=
  match s with
  | [] => []
  | c :: s' =>
      if is_leading_surrogate c then
        match s' with
        | d :: s'' =>
            if is_trailing_surrogate d then c :: d :: quote_units s''
            else unicode_escape c ++ quote_units s'
        | [] => unicode_escape c
        end
      else if is_trailing_surrogate c then unicode_escape c ++ quote_units s'
      else escape_unit c ++ quote_units s'
  end.

(** [QuoteJSONString] *)
Definition quote (s : jsstring) : jsstring := 34 :: quote_units s ++ [34].

(** [Array.prototype.join] *)
Fixpoint join (sep : jsstring) (l : list jsstring) : jsstring :=
  match l with
  | [] => []
  | [x] => x
  | x :: l' => x ++ sep ++ join sep l'
  end.

(** [JSON.stringify(strings)] *)
Definition stringify (strings : list jsstring) : jsstring :=
  91 :: join [44] (List.map quote strings) ++ [93].

Definition hex_value (c : N) : option N :=
  if (48 <=? c) && (c <=? 57) then Some (c - 48)
  else if (97 <=? c) && (c <=? 102) then Some (c - 87)
  else if (65 <=? c) && (c <=? 70) then Some (c - 55)
  else None.

Definition hex4 (h1 h2 h3 h4 : N) : option N :=
  match hex_value h1, hex_value h2, hex_value h3, hex_value h4 with
  | Some a, Some b, Some c, Some d => Some (((a * 16 + b) * 16 + c) * 16 + d)
  | _, _, _, _ => None
  end.

(** The character after a backslash, [u] apart. *)
Definition simple_escape (e : N) : option N :=
  if e =? 34 then Some 34
  else if e =? 92 then Some 92
  else if e =? 47 then Some 47
  else if e =? 98 then Some 8
  else if e =? 102 then Some 12
  else if e =? 110 then Some 10
  else if e =? 114 then Some 13
  else if e =? 116 then Some 9
  else None.

Definition push (c : N) (r : option (jsstring * jsstring)) : option (jsstring * jsstring) :=
  match r with
  | Some (t, rest) => Some (c :: t, rest)
  | None => None
  end.

(** The characters of a JSON string after its opening quote: the string
    they denote and the text after the closing quote. *)
Fixpoint parse_chars (s : jsstring) : option (jsstring * jsstring) :=
  match s with
  | [] => None
  | c :: s' =>
      if c =? 34 then Some ([], s')
      else if c =? 92 then
        match s' with
        | [] => None
        | e :: s'' =>
            if e =? 117 then
              match s'' with
              | h1 :: h2 :: h3 :: h4 :: s''' =>
                  match hex4 h1 h2 h3 h4, parse_chars s''' with
                  | Some u, Some (t, rest) => Some (u :: t, rest)
                  | _, _ => None
                  end
              | _ => None
              end
            else
              match simple_escape e, parse_chars s'' with
              | Some u, Some (t, rest) => Some (u :: t, rest)
              | _, _ => None
              end
        end
      else if c <? 32 then None
      else
        match parse_chars s' with
        | Some (t, rest) => Some (c :: t, rest)
        | None => None
        end
  end.

(** JSON white space: tab, line feed, carriage return, space. *)
Fixpoint skip_ws (s : jsstring) : jsstring :=
  match s with
  | c :: s' => if (c =? 9) || (c =? 10) || (c =? 13) || (c =? 32) then skip_ws s' else s
  | [] => []
  end.

(** The elements after [[] or after a comma, up to the end of the text. *)
Fixpoint parse_elements (fuel : nat) (s : jsstring) : option (list jsstring) :=
  match fuel with
  | O => None
  | S fuel' =>
      match skip_ws s with
      | 34 :: s1 =>
          match parse_chars s1 with
          | Some (str, s2) =>
              match skip_ws s2 with
              | 44 :: s3 => option_map (cons str) (parse_elements fuel' s3)
              | 93 :: s3 => match skip_ws s3 with [] => Some [str] | _ => None end
              | _ => None
              end
          | None => None
          end
      | _ => None
      end
  end.

(** [JSON.parse(text)] where [text] denotes an array of strings.  [None]
    stands for every other outcome: a [SyntaxError], or a value that is not
    an array of strings. *)
Definition parse (text : jsstring) : option (list jsstring) :=
  match skip_ws text with
  | 91 :: s1 =>
      match skip_ws s1 with
      | 93 :: s2 => match skip_ws s2 with [] => Some [] | _ => None end
      | _ => parse_elements (length text) s1
      end
  | _ => None
  end.

(** What the loading effect is left with when [parse] has no array of
    strings to give.  For a text that is not JSON the source throws a
    [SyntaxError] here.  A text that is JSON of another shape the source
    stores as it is, which the typed state of this development cannot
    hold; that case lies outside the model and is counted with the
    first. *)
Definition no_string_array : exn := Error (js "JSON.parse: not an array of strings").

End Json.

(** ** The application under [frontend/src] *)

Module FrontendApp.

(** [RecommendationRequest] *)
Record RecommendationRequest := {
  zip_code : jsstring;
  interests : list jsstring
}.

(** How [await api.post(...)] ends in [services/api.ts]: with
    [response.data], with an axios error (its [response.data.message] when
    there is one, and its own [message]), or with something else thrown. *)
Inductive post_result :=
| Fulfilled (data : jsval)
| AxiosRejected (response_message : option jsstring) (message : jsstring)
| OtherRejected.

(** [getRecommendations] of [services/api.ts] *)
Definition getRecommendations (post : RecommendationRequest -> post_result)
    (request : RecommendationRequest) : completion jsval :=
  match post request with
  | Fulfilled data => Normal data
  | AxiosRejected response_message message =>
      let errorMessage := or_default response_message message in
      Throw (Error (js "Failed to get recommendations: " ++ errorMessage))
  | OtherRejected =>
      Throw (Error (js "An unexpected error occurred while fetching recommendations"))
  end.

Record AppState := {
  preferences : RecommendationRequest;
  events : jsval;
  loading : bool;
  error : option jsstring;
  interestsInput : jsstring
}.

Definition setPreferences (v : RecommendationRequest) : Eff.M unit :=
  Eff.modify (fun st =>
    {| preferences := v; events := events st; loading := loading st;
       error := error st; interestsInput := interestsInput st |}).

Definition setEvents (v : jsval) : Eff.M unit :=
  Eff.modify (fun st =>
    {| preferences := preferences st; events := v; loading := loading st;
       error := error st; interestsInput := interestsInput st |}).

Definition setLoading (v : bool) : Eff.M unit :=
  Eff.modify (fun st =>
    {| preferences := preferences st; events := events st; loading := v;
       error := error st; interestsInput := interestsInput st |}).

Definition setError (v : option jsstring) : Eff.M unit :=
  Eff.modify (fun st =>
    {| preferences := preferences st; events := events st; loading := loading st;
       error := v; interestsInput := interestsInput st |}).

(** [err instanceof Error ? err.message : '...'] *)
Definition message_or_default (err : exn) : jsstring :=
  match err with
  | Error message => message
  | NonError _ => js "Failed to fetch recommendations. Please try again."
  end.

(** [handleSubmit] of [App.tsx]; [e.preventDefault()] and the [console]
    calls leave the state alone and are left out. *)
Definition handleSubmit (post : RecommendationRequest -> post_result) : Eff.M unit :=
  setLoading true ;;
  setError None ;;
  st <- Eff.get ;;
  if eqb (trim (zip_code (preferences st))) [] then
    setError (Some (js "Please enter your zip code")) ;;
    setLoading false
  else
    Eff.try_finally
      (Eff.try_catch
         (response <- Eff.lift (getRecommendations post (preferences st)) ;;
          recs <- Eff.lift (get_field response (js "recommendations")) ;;
          setEvents recs ;;
          empty <- Eff.lift (length_is_zero recs) ;;
          if (empty : bool)
          then setError (Some (js "No events found in your area. Try adjusting your zip code."))
          else Eff.ret tt)
         (fun err => setError (Some (message_or_default err))))
      (setLoading false).

(** *** Saved preferences

    [localStorage]: a map from keys to strings. *)
Definition setItem (key value : jsstring) (store : gmap jsstring jsstring) :
    gmap jsstring jsstring :=
  <[key := value]> store.

Definition getItem (key : jsstring) (store : gmap jsstring jsstring) : option jsstring :=
  store !! key.

(** The second effect: save the preferences whenever they change. *)
Definition save_preferences (p : RecommendationRequest)
    (store : gmap jsstring jsstring) : gmap jsstring jsstring :=
  setItem (js "interests") (Json.stringify (interests p))
          (setItem (js "zipCode") (zip_code p) store).

(** A saved string is used when it is truthy, that is, not empty. *)
Definition truthy_item (v : option jsstring) : option jsstring :=
  match v with
  | Some (c :: s) => Some (c :: s)
  | _ => None
  end.

(** The first effect: load the saved preferences on mount.  Both calls of
    [setPreferences] spread the [preferences] of the render that ran the
    effect, and the state keeps what the last call gave. *)
Definition load_preferences (store : gmap jsstring jsstring) : Eff.M unit :=
  st <- Eff.get ;;
  let savedZipCode := getItem (js "zipCode") store in
  let savedInterests := getItem (js "interests") store in
  match truthy_item savedZipCode with
  | Some zip =>
      setPreferences {| zip_code := zip; interests := interests (preferences st) |}
  | None => Eff.ret tt
  end ;;
  match truthy_item savedInterests with
  | Some text =>
      match Json.parse text with
      | Some parsed =>
          setPreferences {| zip_code := zip_code (preferences st); interests := parsed |}
      | None => Eff.lift (Throw Json.no_string_array)
      end
  | None => Eff.ret tt
  end.

(** Mounting the component.  After the first render both effects run, in
    the order of their declaration and each with the [preferences] of that
    render; the state set by the first effect brings a second render, and
    the saving effect runs after it with the new preferences when one of its
    dependencies changed.  When none changed the same values are saved
    already, so that the store is the same either way. *)
Definition mount (store : gmap jsstring jsstring) : Eff.M (gmap jsstring jsstring) :=
  st0 <- Eff.get ;;
  load_preferences store ;;
  st1 <- Eff.get ;;
  Eff.ret (save_preferences (preferences st1)
                            (save_preferences (preferences st0) store)).

(** *** The list of interests *)

Definition setInterestsInput (v : jsstring) : Eff.M unit :=
  Eff.modify (fun st =>
    {| preferences := preferences st; events := events st; loading := loading st;
       error := error st; interestsInput := v |}).

(** [setPreferences(prev => ...)]: the new preferences are computed from the
    ones the state holds when the update is applied. *)
Definition updatePreferences
    (f : RecommendationRequest -> RecommendationRequest) : Eff.M unit :=
  Eff.modify (fun st =>
    {| preferences := f (preferences st); events := events st; loading := loading st;
       error := error st; interestsInput := interestsInput st |}).

(** [handleAddInterest] *)
Definition handleAddInterest : Eff.M unit :=
  st <- Eff.get ;;
  if eqb (trim (interestsInput st)) [] then Eff.ret tt
  else
    updatePreferences (fun prev =>
      {| zip_code := zip_code prev;
         interests := interests prev ++ [trim (interestsInput st)] |}) ;;
    setInterestsInput [].

(** [array.filter((x, i) => keep x i)], the indices counted from [i]. *)
Fixpoint filter_indexed {A} (keep : A -> Z -> bool) (i : Z) (l : list A) : list A :=
  match l with
  | [] => []
  | x :: l' =>
      if keep x i then x :: filter_indexed keep (i + 1) l'
      else filter_indexed keep (i + 1) l'
  end.

(** [handleRemoveInterest] *)
Definition handleRemoveInterest (index : Z) : Eff.M unit :=
  updatePreferences (fun prev =>
    {| zip_code := zip_code prev;
       interests := filter_indexed (fun _ i => negb (i =? index)%Z) 0 (interests prev) |}).

(** [array.indexOf(x)], the indices counted from [i]; [-1] when [x] is not
    in the array. *)
Fixpoint indexOf_from (x : jsstring) (i : Z) (l : list jsstring) : Z :=
  match l with
  | [] => (-1)%Z
  | y :: l' => if eqb y x then i else indexOf_from x (i + 1) l'
  end.

Definition indexOf (x : jsstring) (l : list jsstring) : Z := indexOf_from x 0 l.

(** The button of the chip that shows [interest]:
    [onClick={() => handleRemoveInterest(preferences.interests.indexOf(interest))}]. *)
Definition click_remove (interest : jsstring) : Eff.M unit :=
  st <- Eff.get ;;
  handleRemoveInterest (indexOf interest (interests (preferences st))).

End FrontendApp.

(** ** The browser extension ([extension/popup.js]) *)

Module Popup.

(** What [alert] is called with. *)
Inductive alert_argument :=
| AlertText (text : jsstring)
| AlertValue (v : jsval)
| AlertErrorPlus (message : jsval).

(** What the listener has written: the [display] style of the two
    elements, the string last assigned to the [innerHTML] of the results, if
    any, and the calls of [alert] so far.  The browser parses an assigned
    string into the children of the element; that step, and with it what
    reading [innerHTML] back gives, is outside this development. *)
Record PopupState := {
  loading_display : jsstring;
  results_display : jsstring;
  results_assigned : option jsstring;
  alerts : list alert_argument
}.

Definition set_loading_display (v : jsstring) : Eff.M unit :=
  Eff.modify (fun st =>
    {| loading_display := v; results_display := results_display st;
       results_assigned := results_assigned st; alerts := alerts st |}).

Definition set_results_display (v : jsstring) : Eff.M unit :=
  Eff.modify (fun st =>
    {| loading_display := loading_display st; results_display := v;
       results_assigned := results_assigned st; alerts := alerts st |}).

(** [results.innerHTML = v], as far as the assignment goes. *)
Definition set_results_innerHTML (v : jsstring) : Eff.M unit :=
  Eff.modify (fun st =>
    {| loading_display := loading_display st; results_display := results_display st;
       results_assigned := Some v; alerts := alerts st |}).

Definition alert (a : alert_argument) : Eff.M unit :=
  Eff.modify (fun st =>
    {| loading_display := loading_display st; results_display := results_display st;
       results_assigned := results_assigned st; alerts := alerts st ++ [a] |}).

(** [ToBoolean] *)
Definition truthy (v : jsval) : bool :=
  match v with
  | JUndefined | JNull => false
  | JBool b => b
  | JNumber x => truthy_number x
  | JString s => negb (eqb s [])
  | JArray _ | JObject _ => true
  end.

(** [s.replace(/\n/g, '<br>')] *)
Definition replace_line_feeds (s : jsstring) : jsstring :=
  flat_map (fun c => if c =? 10 then js "<br>" else [c]) s.

(** [v.replace(/\n/g, '<br>')] for a value out of a JSON body: only a string
    has the method. *)
Definition value_replace_line_feeds (v : jsval) : completion jsstring :=
  match v with
  | JString s => Normal (replace_line_feeds s)
  | JUndefined => Throw (cannot_read (js "undefined") (js "replace"))
  | JNull => Throw (cannot_read (js "null") (js "replace"))
  | _ => Throw (Error (js "recommendationsData.recommendations.replace is not a function"))
  end.

(** ['Error: ' + error.message] *)
Definition error_alert (e : exn) : completion alert_argument :=
  match e with
  | Error message => Normal (AlertText (js "Error: " ++ message))
  | NonError v =>
      match get_field v (js "message") with
      | Normal (JString message) => Normal (AlertText (js "Error: " ++ message))
      | Normal m => Normal (AlertErrorPlus m)
      | Throw e' => Throw e'
      end
  end.

(** [alert(recommendationsData.error || 'An error occurred')] *)
Definition failure_alert (error : jsval) : alert_argument :=
  if truthy error then
    match error with
    | JString text => AlertText text
    | _ => AlertValue error
    end
  else AlertText (js "An error occurred").

(** [document.getElementById('interests').value.split(',').map(i => i.trim())] *)
Definition interests_of (value : jsstring) : list jsstring :=
  List.map trim (split 44 value).

(** The part of the listener after its first check.  [locate] is how the
    geolocation promise ends, [reverse] how the reverse geocoding request and
    its [json()] end, and [recommend zip interests] how the request for
    recommendations and its [json()] end, with [response.ok] and the body. *)
Definition request_and_show (interests : list jsstring)
    (locate : completion unit) (reverse : completion jsval)
    (recommend : jsval -> list jsstring -> completion (bool * jsval)) : Eff.M unit :=
  set_loading_display (js "block") ;;
  set_results_display (js "none") ;;
  Eff.try_finally
    (Eff.try_catch
       (Eff.lift locate ;;
        data <- Eff.lift reverse ;;
        address <- Eff.lift (get_field data (js "address")) ;;
        zipCode <- Eff.lift (get_field address (js "postcode")) ;;
        answer <- Eff.lift (recommend zipCode interests) ;;
        if (fst answer : bool) then
          recommendations <- Eff.lift (get_field (snd answer) (js "recommendations")) ;;
          html <- Eff.lift (value_replace_line_feeds recommendations) ;;
          set_results_innerHTML html ;;
          set_results_display (js "block")
        else
          error <- Eff.lift (get_field (snd answer) (js "error")) ;;
          alert (failure_alert error))
       (fun e => a <- Eff.lift (error_alert e) ;; alert a))
    (set_loading_display (js "none")).

(** The click listener of the button. *)
Definition on_click (value : jsstring)
    (locate : completion unit) (reverse : completion jsval)
    (recommend : jsval -> list jsstring -> completion (bool * jsval)) : Eff.M unit :=
  let interests := interests_of value in
  if (length interests =? 0)%nat
  then alert (AlertText (js "Please enter at least one interest"))
  else request_and_show interests locate reverse recommend.

End Popup.

(** ** Specification-level definitions *)

(** Category tags as the specification words them: keep the head, drop its later copies, go on. *)
Equations? dedup_first (l : list jsstring) : list jsstring by wf (length l) lt :=
  dedup_first [] := [];
  dedup_first (x :: l') := x :: dedup_first (List.filter (fun y => negb (eqb x y)) l').
Proof.
  clear dedup_first. apply Nat.lt_succ_r.
  induction l' as [|y l' IH]; simpl; [lia|].
  destruct (negb (eqb x y)); simpl; lia.
Qed.

(** The text after the label of a labelled line, trimmed. *)
Definition text_after_label (label line : jsstring) : jsstring :=
  trim (skipn (length label) (trim line)).

(** [hit] is the first of [lines] whose trimmed content starts with
    [label]; no [hit] when no line does. *)
Definition first_labelled (label : jsstring) (lines : list jsstring)
    (hit : option jsstring) : Prop :=
  match hit with
  | Some line =>
      exists before after,
        lines = before ++ line :: after /\
        startsWith label (trim line) = true /\
        Forall (fun l => startsWith label (trim l) = false) before
  | None => Forall (fun l => startsWith label (trim l) = false) lines
  end.

(** A field read after the title line only, with its fallback exactly when
    no line carries the label. *)
Definition field_after_title (label fallback : jsstring)
    (after_title : list jsstring) : jsstring :=
  match List.find (fun line => startsWith label (trim line)) after_title with
  | Some line => text_after_label label line
  | None => fallback
  end.

(** Comma-separated pieces, trimmed, the empty ones dropped. *)
Definition pieces_without_empty (value : jsstring) : list jsstring :=
  List.filter (fun piece => negb (eqb piece [])) (List.map trim (split 44 value)).

(** How many times a code unit occurs in a string. *)
Definition occurrences (c : N) (s : jsstring) : nat :=
  length (List.filter (N.eqb c) s).

(** A shift that lost a bit that was set. *)
Definition inexact (mrs : shr_record) : bool := shr_r mrs || shr_s mrs.

(** [n] is the integer nearest to [m * 2^e], the larger one of two that are
    as near. *)
Definition is_nearest (m : positive) (e n : Z) : Prop :=
  match e with
  | Zneg p =>
      (2 * Z.pos m - 2 ^ Z.pos p < 2 * n * 2 ^ Z.pos p <= 2 * Z.pos m + 2 ^ Z.pos p)%Z
  | _ => (n = Z.pos m * 2 ^ e)%Z
  end.

(** A card with a relevance score, or without one. *)
Definition card_with_score (score : option number) : CardApp.Recommendation :=
  {| CardApp.title := js "Jazz Night";
     CardApp.description := js "Live jazz";
     CardApp.date := js "Friday";
     CardApp.location := js "Blue Room";
     CardApp.price := None;
     CardApp.categories := None;
     CardApp.url := None;
     CardApp.relevance_score := score;
     CardApp.reasoning := None;
     CardApp.personalization := None |}.

(** ** Definitions for the further properties *)

(** The record that [parseRecommendation] builds from the lines it keeps. *)
Definition record_of_lines (lines : list jsstring) :
    completion (option CardApp.Recommendation) :=
  if (length lines <? 2)%nat then Normal None
  else
    match nth_error lines 0 with
    | None => Throw (cannot_read (js "undefined") (js "replace"))
    | Some line0 =>
        Normal (Some
          {| CardApp.title := trim (replace_leading_dash line0);
             CardApp.description :=
               or_default (CardApp.labelled (js "Description:") lines)
                          (js "No description available");
             CardApp.date :=
               or_default (CardApp.labelled (js "Date:") lines) (js "Date not specified");
             CardApp.location :=
               or_default (CardApp.labelled (js "Location:") lines)
                          (js "Location not specified");
             CardApp.price := CardApp.labelled (js "Price:") lines;
             CardApp.categories :=
               option_map (fun v => List.map trim (split 44 v))
                          (CardApp.labelled (js "Categories:") lines);
             CardApp.url := None; CardApp.relevance_score := None;
             CardApp.reasoning := None; CardApp.personalization := None |})
    end.

(** The five labels. *)
Definition labels : list jsstring :=
  [js "Description:"; js "Location:"; js "Date:"; js "Price:"; js "Categories:"].

(** A line that carries [label]. *)
Definition carries (label line : jsstring) : bool := startsWith label (trim line).

(** A string without a line feed, and one that has white space only. *)
Definition no_line_feed (s : jsstring) : bool := forallb (fun c => negb (c =? 10)) s.
Definition white (s : jsstring) : bool := forallb is_ws s.

(** [ls] are the lines of [text]: pieces without a line feed that give
    [text] back when joined by line feeds. *)
Definition lines_of (text : jsstring) (ls : list jsstring) : Prop :=
  ls <> [] /\ List.Forall (fun l => no_line_feed l = true) ls /\ unlines ls = text.

(** The lines that hold more than white space. *)
Definition visible_lines (ls : list jsstring) : list jsstring :=
  List.filter (fun l => negb (white l)) ls.

(** The three ways a click on the button of the popup can end, from the
    state [st] it started in: a string without a line feed assigned to the
    results and the results shown, one alert raised, or the listener
    throwing. *)
Definition click_outcome (st : Popup.PopupState)
    (out : completion unit * Popup.PopupState) : Prop :=
  (fst out = Normal tt /\
   Popup.results_display (snd out) = js "block" /\
   Popup.alerts (snd out) = Popup.alerts st /\
   exists text,
     Popup.results_assigned (snd out) = Some (Popup.replace_line_feeds text) /\
     no_line_feed (Popup.replace_line_feeds text) = true) \/
  (fst out = Normal tt /\
   Popup.results_display (snd out) = js "none" /\
   Popup.results_assigned (snd out) = Popup.results_assigned st /\
   exists a, Popup.alerts (snd out) = Popup.alerts st ++ [a]) \/
  ((exists e, fst out = Throw e) /\
   Popup.results_display (snd out) = js "none" /\
   Popup.results_assigned (snd out) = Popup.results_assigned st /\
   Popup.alerts (snd out) = Popup.alerts st).

(** * Properties *)

(** ** Strings *)

Section StringFacts.

Implicit Types s t p r w : jsstring.

Lemma eqb_eq s t : eqb s t = true <-> s = t.
Proof.
  revert t; induction s as [|a s IH]; intros [|b t]; simpl; split;
    try congruence; try reflexivity.
  - intros H. apply andb_prop in H as [Hab Hst].
    apply N.eqb_eq in Hab. apply IH in Hst. congruence.
  - intros H. injection H as -> ->. rewrite N.eqb_refl. simpl. now apply IH.
Qed.

Lemma eqb_nil s : eqb s [] = true <-> s = [].
Proof. apply eqb_eq. Qed.

Lemma startsWith_app p r : startsWith p (p ++ r) = true.
Proof. induction p as [|a p IH]; simpl; [reflexivity|]. now rewrite N.eqb_refl. Qed.

Lemma startsWith_inv p s : startsWith p s = true -> s = p ++ skipn (length p) s.
Proof.
  revert s; induction p as [|a p IH]; intros [|b s]; simpl; try congruence.
  intros H. apply andb_prop in H as [Hab Hps].
  apply N.eqb_eq in Hab. subst b. f_equal. now apply IH.
Qed.

(** Leading white space. *)
Lemma trimStart_split s :
  exists w, s = w ++ trimStart s /\ forallb is_ws w = true.
Proof.
  induction s as [|c s (w & Hs & Hw)]; simpl.
  - exists []. split; reflexivity.
  - destruct (is_ws c) eqn:Hc.
    + exists (c :: w). simpl. rewrite Hc, Hw. split; [congruence|reflexivity].
    + exists []. split; reflexivity.
Qed.

Lemma trimStart_ws_app w s : forallb is_ws w = true -> trimStart (w ++ s) = trimStart s.
Proof.
  induction w as [|c w IH]; simpl; [reflexivity|].
  intros H. apply andb_prop in H as [Hc Hw]. rewrite Hc. now apply IH.
Qed.

Lemma trimStart_all_ws w : forallb is_ws w = true -> trimStart w = [].
Proof.
  intros H. rewrite <- (app_nil_r w). now rewrite trimStart_ws_app.
Qed.

Lemma trimStart_app s t :
  trimStart (s ++ t) =
  match trimStart s with [] => trimStart t | _ => trimStart s ++ t end.
Proof.
  induction s as [|c s IH]; simpl; [reflexivity|].
  destruct (is_ws c); [exact IH|reflexivity].
Qed.

(** Trailing white space. *)
Lemma trimEnd_split s :
  exists w, s = trimEnd s ++ w /\ forallb is_ws w = true.
Proof.
  induction s as [|c s (w & Hs & Hw)]; simpl.
  - exists []. split; reflexivity.
  - destruct (trimEnd s) as [|d t] eqn:Ht.
    + destruct (is_ws c) eqn:Hc.
      * exists (c :: w). simpl in *. rewrite Hc, Hw. split; [congruence|reflexivity].
      * exists w. simpl in *. split; [congruence|assumption].
    + exists w. split; [|assumption]. simpl. f_equal. exact Hs.
Qed.

Lemma trimEnd_all_ws w : forallb is_ws w = true -> trimEnd w = [].
Proof.
  induction w as [|c w IH]; simpl; [reflexivity|].
  intros H. apply andb_prop in H as [Hc Hw]. now rewrite IH, Hc.
Qed.

Lemma trimEnd_app_ws s w : forallb is_ws w = true -> trimEnd (s ++ w) = trimEnd s.
Proof.
  intros Hw. induction s as [|c s IH]; simpl.
  - now apply trimEnd_all_ws.
  - now rewrite IH.
Qed.

Lemma trimEnd_app_keep s t : trimEnd t <> [] -> trimEnd (s ++ t) = s ++ trimEnd t.
Proof.
  intros Ht. induction s as [|c s IH]; simpl; [reflexivity|].
  rewrite IH. destruct (s ++ trimEnd t) eqn:E; [|reflexivity].
  apply app_eq_nil in E as [_ E]. contradiction.
Qed.

Lemma trimEnd_idem s : trimEnd (trimEnd s) = trimEnd s.
Proof.
  induction s as [|c s IH]; simpl; [reflexivity|].
  destruct (trimEnd s) as [|d t] eqn:Ht.
  - destruct (is_ws c) eqn:Hc; simpl; [reflexivity|now rewrite Hc].
  - change (trimEnd (c :: d :: t)) with
      (match trimEnd (d :: t) with [] => if is_ws c then [] else [c] | u => c :: u end).
    now rewrite IH.
Qed.

(** White space after the text does not change what [trim] gives. *)
Lemma trim_app_ws s w : forallb is_ws w = true -> trim (s ++ w) = trim s.
Proof.
  intros Hw. unfold trim. rewrite trimStart_app.
  destruct (trimStart s) as [|c t] eqn:Hs.
  - now rewrite (trimStart_all_ws w Hw).
  - now apply trimEnd_app_ws.
Qed.

Lemma trim_ws_app w s : forallb is_ws w = true -> trim (w ++ s) = trim s.
Proof. intros Hw. unfold trim. now rewrite trimStart_ws_app. Qed.

(** A pattern that starts with a visible character is not found inside
    white space, so its first occurrence comes after it. *)
Lemma startsWith_ws c p w s :
  is_ws c = false -> forallb is_ws w = true -> w <> [] ->
  startsWith (c :: p) (w ++ s) = false.
Proof.
  intros Hc Hw Hne. destruct w as [|d w]; [contradiction|]. simpl in *.
  apply andb_prop in Hw as [Hd _].
  destruct (N.eqb_spec c d) as [->|]; [congruence|reflexivity].
Qed.

Lemma replace_unfold pat rep s :
  replace pat rep s =
  if startsWith pat s then rep ++ skipn (length pat) s
  else match s with [] => [] | c :: s' => c :: replace pat rep s' end.
Proof. destruct s; reflexivity. Qed.

Lemma replace_here pat rep r : replace pat rep (pat ++ r) = rep ++ r.
Proof.
  rewrite replace_unfold, startsWith_app. f_equal.
  rewrite skipn_app, skipn_all, Nat.sub_diag. reflexivity.
Qed.

Lemma replace_after_ws c p rep w r :
  is_ws c = false -> forallb is_ws w = true ->
  replace (c :: p) rep (w ++ (c :: p) ++ r) = w ++ rep ++ r.
Proof.
  intros Hc Hw. induction w as [|d w IH].
  - exact (replace_here (c :: p) rep r).
  - assert (Hd : forallb is_ws w = true) by (simpl in Hw; now apply andb_prop in Hw).
    rewrite replace_unfold.
    rewrite (startsWith_ws c p (d :: w)) by (auto; discriminate).
    simpl. f_equal. now apply IH.
Qed.

(** The text after the label of a labelled line: what
    [line.replace(label, '').trim()] computes. *)
Lemma replace_label_trim c p line :
  is_ws c = false ->
  startsWith (c :: p) (trim line) = true ->
  trim (replace (c :: p) [] line) = trim (skipn (length (c :: p)) (trim line)).
Proof.
  intros Hc Hstart.
  destruct (trimStart_split line) as (w & Hline & Hw).
  destruct (trimEnd_split (trimStart line)) as (w2 & Ht & Hw2).
  fold (trim line) in Ht.
  pose proof (startsWith_inv _ _ Hstart) as Htrim.
  set (r := skipn (length (c :: p)) (trim line)) in *.
  assert (Hl : line = w ++ (c :: p) ++ (r ++ w2)).
  { rewrite Hline at 1. rewrite Ht, Htrim. now rewrite <- app_assoc. }
  rewrite Hl at 1. rewrite replace_after_ws by assumption.
  cbn [app]. rewrite trim_ws_app by assumption. now apply trim_app_ws.
Qed.

End StringFacts.

(** ** [parseRecommendation] *)

Section ParseFacts.

Import CardApp.

Lemma find_label_first label lines :
  first_labelled label lines (find_label label lines).
Proof.
  unfold find_label. induction lines as [|l lines IH]; simpl.
  - constructor.
  - destruct (startsWith label (trim l)) eqn:Hl.
    + exists [], lines. repeat split; auto.
    + destruct (List.find _ lines) as [hit|]; simpl in *.
      * destruct IH as (before & after & -> & Hhit & Hbefore).
        exists (l :: before), after. repeat split; auto.
      * constructor; assumption.
Qed.

Lemma first_labelled_unique label lines hit :
  first_labelled label lines hit -> find_label label lines = hit.
Proof.
  unfold find_label. destruct hit as [line|]; simpl.
  - intros (before & after & -> & Hhit & Hbefore).
    induction Hbefore as [|l before Hl _ IH]; simpl.
    + now rewrite Hhit.
    + now rewrite Hl.
  - intros Hall. induction Hall as [|l lines Hl _ IH]; simpl; [reflexivity|].
    now rewrite Hl.
Qed.

(** [lines.find(...)?.replace(label, '').trim()] is the text after the label
    of the first labelled line. *)
Lemma labelled_text_after_label c p lines :
  is_ws c = false ->
  labelled (c :: p) lines =
  option_map (text_after_label (c :: p)) (find_label (c :: p) lines).
Proof.
  intros Hc. unfold labelled.
  pose proof (find_label_first (c :: p) lines) as H.
  destruct (find_label (c :: p) lines) as [line|]; simpl; [|reflexivity].
  destruct H as (_ & _ & _ & Hline & _).
  f_equal. now apply replace_label_trim.
Qed.

Lemma or_default_non_empty v d : d <> [] -> or_default v d <> [].
Proof. destruct v as [[|c s]|]; simpl; congruence. Qed.

(** The record that a block with two lines or more parses to. *)
Lemma parseRecommendation_accepts text :
  (length (non_empty_lines text) <? 2)%nat = false ->
  exists line0,
    nth_error (non_empty_lines text) 0 = Some line0 /\
    parseRecommendation text =
    Normal (Some
      {| title := trim (replace_leading_dash line0);
         description := or_default (labelled (js "Description:") (non_empty_lines text))
                                   (js "No description available");
         date := or_default (labelled (js "Date:") (non_empty_lines text))
                            (js "Date not specified");
         location := or_default (labelled (js "Location:") (non_empty_lines text))
                                (js "Location not specified");
         price := labelled (js "Price:") (non_empty_lines text);
         categories :=
           option_map (fun v => List.map trim (split 44 v))
                      (labelled (js "Categories:") (non_empty_lines text));
         url := None; relevance_score := None;
         reasoning := None; personalization := None |}).
Proof.
  intros Hlen. unfold parseRecommendation. rewrite Hlen.
  destruct (non_empty_lines text) as [|line0 rest] eqn:Hlines.
  - discriminate.
  - exists line0. split; reflexivity.
Qed.

Lemma parseRecommendation_rejects text :
  (length (non_empty_lines text) <? 2)%nat = true ->
  parseRecommendation text = Normal None.
Proof. intros Hlen. unfold parseRecommendation. now rewrite Hlen. Qed.

(** The fields of a parsed record, through [find_label]. *)
Lemma parsed_record_fields text rec :
  parseRecommendation text = Normal (Some rec) ->
  description rec =
    or_default (option_map (text_after_label (js "Description:"))
                           (find_label (js "Description:") (non_empty_lines text)))
               (js "No description available") /\
  location rec =
    or_default (option_map (text_after_label (js "Location:"))
                           (find_label (js "Location:") (non_empty_lines text)))
               (js "Location not specified") /\
  date rec =
    or_default (option_map (text_after_label (js "Date:"))
                           (find_label (js "Date:") (non_empty_lines text)))
               (js "Date not specified") /\
  price rec =
    option_map (text_after_label (js "Price:"))
               (find_label (js "Price:") (non_empty_lines text)) /\
  categories rec =
    option_map (fun line =>
                  List.map trim (split 44 (text_after_label (js "Categories:") line)))
               (find_label (js "Categories:") (non_empty_lines text)).
Proof.
  intros Hparse.
  destruct (length (non_empty_lines text) <? 2)%nat eqn:Hlen.
  - rewrite (parseRecommendation_rejects text Hlen) in Hparse. discriminate.
  - destruct (parseRecommendation_accepts text Hlen) as (line0 & _ & Heq).
    rewrite Heq in Hparse. injection Hparse as <-.
    cbn [description location date price categories].
    change (js "Description:") with (68 :: js "escription:").
    change (js "Location:") with (76 :: js "ocation:").
    change (js "Date:") with (68 :: js "ate:").
    change (js "Price:") with (80 :: js "rice:").
    change (js "Categories:") with (67 :: js "ategories:").
    rewrite !labelled_text_after_label by reflexivity.
    repeat split; try reflexivity.
    destruct (find_label _ _); reflexivity.
Qed.

End ParseFacts.

(** C1, as stated, fails twice: the title line itself is scanned for the
    labels, and a labelled line with nothing after the label gets the
    fallback too. *)
Lemma fields_after_title_counterexample :
  (exists rec line0 rest,
     CardApp.non_empty_lines (unlines [js "Description: A"; js "x"]) = line0 :: rest /\
     CardApp.parseRecommendation (unlines [js "Description: A"; js "x"]) = Normal (Some rec) /\
     CardApp.description rec = js "A" /\
     field_after_title (js "Description:") (js "No description available") rest
       = js "No description available") /\
  (exists rec line0 rest,
     CardApp.non_empty_lines (unlines [js "Gig"; js "Date:"]) = line0 :: rest /\
     CardApp.parseRecommendation (unlines [js "Gig"; js "Date:"]) = Normal (Some rec) /\
     CardApp.date rec = js "Date not specified" /\
     field_after_title (js "Date:") (js "Date not specified") rest = []).
Proof.
  split; do 3 eexists; repeat split; reflexivity.
Qed.

(** C1, amended: each of the five fields is read from the first of all the
    non-empty lines, the title line included, whose trimmed content starts
    with its label, and its value is the text after the label, trimmed.
    Description, location and date take their fallback when there is no
    such line or when that text is empty; price and categories are absent
    when there is no such line, and the categories are that text split on
    commas, each piece trimmed. *)
Theorem fields_from_first_labelled_line text rec :
  CardApp.parseRecommendation text = Normal (Some rec) ->
  exists d l t p c,
    first_labelled (js "Description:") (CardApp.non_empty_lines text) d /\
    first_labelled (js "Location:") (CardApp.non_empty_lines text) l /\
    first_labelled (js "Date:") (CardApp.non_empty_lines text) t /\
    first_labelled (js "Price:") (CardApp.non_empty_lines text) p /\
    first_labelled (js "Categories:") (CardApp.non_empty_lines text) c /\
    CardApp.description rec =
      or_default (option_map (text_after_label (js "Description:")) d)
                 (js "No description available") /\
    CardApp.location rec =
      or_default (option_map (text_after_label (js "Location:")) l)
                 (js "Location not specified") /\
    CardApp.date rec =
      or_default (option_map (text_after_label (js "Date:")) t)
                 (js "Date not specified") /\
    CardApp.price rec = option_map (text_after_label (js "Price:")) p /\
    CardApp.categories rec =
      option_map (fun line =>
                    List.map trim (split 44 (text_after_label (js "Categories:") line))) c.
Proof.
  intros Hparse.
  destruct (parsed_record_fields text rec Hparse) as (Hd & Hl & Ht & Hp & Hc).
  exists (CardApp.find_label (js "Description:") (CardApp.non_empty_lines text)),
         (CardApp.find_label (js "Location:") (CardApp.non_empty_lines text)),
         (CardApp.find_label (js "Date:") (CardApp.non_empty_lines text)),
         (CardApp.find_label (js "Price:") (CardApp.non_empty_lines text)),
         (CardApp.find_label (js "Categories:") (CardApp.non_empty_lines text)).
  repeat (split; [apply find_label_first|]).
  repeat split; assumption.
Qed.

Lemma fields_from_first_labelled_line_witness :
  exists d l t p c,
    first_labelled (js "Description:")
      (CardApp.non_empty_lines (unlines [js "- Jazz Night"; js " Description:  Live jazz "])) d /\
    first_labelled (js "Location:")
      (CardApp.non_empty_lines (unlines [js "- Jazz Night"; js " Description:  Live jazz "])) l /\
    first_labelled (js "Date:")
      (CardApp.non_empty_lines (unlines [js "- Jazz Night"; js " Description:  Live jazz "])) t /\
    first_labelled (js "Price:")
      (CardApp.non_empty_lines (unlines [js "- Jazz Night"; js " Description:  Live jazz "])) p /\
    first_labelled (js "Categories:")
      (CardApp.non_empty_lines (unlines [js "- Jazz Night"; js " Description:  Live jazz "])) c /\
    js "Live jazz" =
      or_default (option_map (text_after_label (js "Description:")) d)
                 (js "No description available") /\
    js "Location not specified" =
      or_default (option_map (text_after_label (js "Location:")) l)
                 (js "Location not specified") /\
    js "Date not specified" =
      or_default (option_map (text_after_label (js "Date:")) t)
                 (js "Date not specified") /\
    None = option_map (text_after_label (js "Price:")) p /\
    None =
      option_map (fun line =>
                    List.map trim (split 44 (text_after_label (js "Categories:") line))) c.
Proof.
  exact (fields_from_first_labelled_line
           (unlines [js "- Jazz Night"; js " Description:  Live jazz "])
           {| CardApp.title := js "Jazz Night";
              CardApp.description := js "Live jazz";
              CardApp.date := js "Date not specified";
              CardApp.location := js "Location not specified";
              CardApp.price := None; CardApp.categories := None;
              CardApp.url := None; CardApp.relevance_score := None;
              CardApp.reasoning := None; CardApp.personalization := None |}
           eq_refl).
Defined.

Lemma split_length sep s : length (split sep s) = S (occurrences sep s).
Proof.
  unfold occurrences. induction s as [|c s IH]; simpl; [reflexivity|].
  rewrite (N.eqb_sym sep c).
  destruct (c =? sep); simpl.
  - now rewrite IH.
  - destruct (split sep s); simpl in *; [discriminate|exact IH].
Qed.

(** C3, as stated, fails: an empty piece between two commas is kept. *)
Lemma categories_keep_empty_pieces :
  exists rec,
    CardApp.parseRecommendation (unlines [js "Fair"; js "Categories: Music,,Art"])
      = Normal (Some rec) /\
    CardApp.categories rec = Some [js "Music"; []; js "Art"] /\
    pieces_without_empty (js "Music,,Art") = [js "Music"; js "Art"] /\
    CardApp.categories rec <> Some (pieces_without_empty (js "Music,,Art")).
Proof.
  eexists. repeat split; try reflexivity. discriminate.
Qed.

(** C3, amended: for a block with a Categories line the categories are the
    text after the label split on commas, each piece trimmed, and every
    piece is kept, the empty ones too: there is one more piece than there
    are commas. *)
Theorem categories_split_and_trimmed text rec line :
  CardApp.parseRecommendation text = Normal (Some rec) ->
  first_labelled (js "Categories:") (CardApp.non_empty_lines text) (Some line) ->
  CardApp.categories rec =
    Some (List.map trim (split 44 (text_after_label (js "Categories:") line))) /\
  option_map (@length jsstring) (CardApp.categories rec) =
    Some (S (occurrences 44 (text_after_label (js "Categories:") line))).
Proof.
  intros Hparse Hline.
  destruct (parsed_record_fields text rec Hparse) as (_ & _ & _ & _ & Hcat).
  apply first_labelled_unique in Hline. rewrite Hline in Hcat.
  rewrite Hcat. simpl. split; [reflexivity|].
  now rewrite length_map, split_length.
Qed.

Lemma categories_split_and_trimmed_witness :
  Some [js "Music"; []; js "Art"] =
    Some (List.map trim (split 44 (text_after_label (js "Categories:")
                                                   (js "Categories: Music,,Art")))) /\
  option_map (@length jsstring) (Some [js "Music"; []; js "Art"]) =
    Some (S (occurrences 44 (text_after_label (js "Categories:")
                                              (js "Categories: Music,,Art")))).
Proof.
  refine (categories_split_and_trimmed
            (unlines [js "Fair"; js "Categories: Music,,Art"])
            {| CardApp.title := js "Fair";
               CardApp.description := js "No description available";
               CardApp.date := js "Date not specified";
               CardApp.location := js "Location not specified";
               CardApp.price := None;
               CardApp.categories := Some [js "Music"; []; js "Art"];
               CardApp.url := None; CardApp.relevance_score := None;
               CardApp.reasoning := None; CardApp.personalization := None |}
            (js "Categories: Music,,Art") eq_refl _).
  exists [js "Fair"], []. repeat split; try reflexivity.
  repeat constructor.
Defined.

(** C9: [parseRecommendation] never throws: it answers [null] or a record,
    whose description, date and location are never empty; and whenever the
    length check lets the block through, the first line is there to be
    read. *)
Theorem parseRecommendation_total text :
  (CardApp.parseRecommendation text = Normal None \/
   exists rec,
     CardApp.parseRecommendation text = Normal (Some rec) /\
     CardApp.description rec <> [] /\
     CardApp.date rec <> [] /\
     CardApp.location rec <> []) /\
  ((length (CardApp.non_empty_lines text) <? 2)%nat = true \/
   exists line0, nth_error (CardApp.non_empty_lines text) 0 = Some line0).
Proof.
  destruct (length (CardApp.non_empty_lines text) <? 2)%nat eqn:Hlen.
  - split; left; [now apply parseRecommendation_rejects|reflexivity].
  - destruct (parseRecommendation_accepts text Hlen) as (line0 & Hnth & Hrec).
    split; right; [|now exists line0].
    eexists. split; [exact Hrec|]. simpl.
    repeat split; apply or_default_non_empty; discriminate.
Qed.

(** C10: some block with two non-empty lines whose first line is only a
    bullet marker parses to a record with an empty title. *)
Theorem bullet_only_title_is_empty :
  exists text rec,
    CardApp.non_empty_lines text = [js "-"; js "detail"] /\
    CardApp.parseRecommendation text = Normal (Some rec) /\
    CardApp.title rec = [].
Proof.
  exists (unlines [js "-"; js "detail"]). eexists. repeat split; reflexivity.
Qed.

(** ** Category tags *)

Section TagFacts.

Import CardApp.

Lemma existsb_eqb_In x l : existsb (eqb x) l = true <-> In x l.
Proof.
  rewrite existsb_exists. split.
  - intros (y & Hy & Hxy). apply eqb_eq in Hxy. now subst.
  - intros H. exists x. split; [assumption|now apply eqb_eq].
Qed.

Lemma eqb_sym s t : eqb s t = eqb t s.
Proof.
  destruct (eqb s t) eqn:E1, (eqb t s) eqn:E2; try reflexivity.
  - apply eqb_eq in E1. subst. rewrite (proj2 (eqb_eq t t) eq_refl) in E2. discriminate.
  - apply eqb_eq in E2. subst. rewrite (proj2 (eqb_eq s s) eq_refl) in E1. discriminate.
Qed.

Lemma filter_filter {A} (f g : A -> bool) l :
  List.filter f (List.filter g l) = List.filter (fun x => g x && f x) l.
Proof.
  induction l as [|a l IH]; simpl; [reflexivity|].
  destruct (g a); simpl; [destruct (f a)|]; now rewrite IH.
Qed.

(** The set built value after value, from the values [acc] it already
    holds. *)
Lemma fold_Set_add l : forall acc,
  fold_left Set_add l acc =
  acc ++ dedup_first (List.filter (fun y => negb (existsb (eqb y) acc)) l).
Proof.
  induction l as [|x l IH]; intros acc; simpl.
  - simp dedup_first. now rewrite app_nil_r.
  - unfold Set_add at 2. destruct (existsb (eqb x) acc) eqn:Hx; simpl.
    + apply IH.
    + rewrite IH. simp dedup_first. rewrite <- app_assoc. simpl.
      do 3 f_equal. rewrite filter_filter. apply filter_ext.
      intros y. rewrite existsb_app. simpl.
      rewrite orb_false_r, negb_orb. now rewrite (eqb_sym x y).
Qed.

Lemma new_Set_dedup_first l : new_Set l = dedup_first l.
Proof.
  unfold new_Set. rewrite fold_Set_add. simpl.
  f_equal. induction l as [|x l IH]; simpl; congruence.
Qed.

Lemma dedup_first_In l : forall x, In x (dedup_first l) <-> In x l.
Proof.
  funelim (dedup_first l); intros y; simp dedup_first; [tauto|].
  simpl. rewrite H, filter_In. split.
  - intros [->|[Hy _]]; auto.
  - intros [->|Hy]; auto.
    destruct (eqb x y) eqn:E; [apply eqb_eq in E; auto|right; auto].
Qed.

Lemma dedup_first_NoDup l : List.NoDup (dedup_first l).
Proof.
  funelim (dedup_first l); simp dedup_first; constructor; [|assumption].
  rewrite dedup_first_In, filter_In. intros [_ Hx].
  rewrite (proj2 (eqb_eq x x) eq_refl) in Hx. discriminate.
Qed.

End TagFacts.

(** C4: the rendered tags are the categories without their duplicates, each
    kept where it first appears; the block with [Categories: Music, Music,
    Art] renders the tags Music and Art. *)
Theorem category_tags_deduplicated :
  (forall rec,
     CardApp.category_tags rec = option_map dedup_first (CardApp.categories rec)) /\
  (forall cats,
     List.NoDup (dedup_first cats) /\
     forall x, In x (dedup_first cats) <-> In x cats) /\
  (exists rec,
     CardApp.parseRecommendation
       (unlines [js "Fair"; js "Categories: Music, Music, Art"]) = Normal (Some rec) /\
     CardApp.category_tags rec = Some [js "Music"; js "Art"]).
Proof.
  split; [|split].
  - intros rec. unfold CardApp.category_tags, CardApp.Array_from.
    destruct (CardApp.categories rec); simpl; [|reflexivity].
    now rewrite new_Set_dedup_first.
  - intros cats. split; [apply dedup_first_NoDup|apply dedup_first_In].
  - eexists. split; reflexivity.
Qed.

(** ** The submit handlers *)

(** C5: when the [recommendations] of the response are not an array, the
    handler of the card variant completes without throwing, with the
    format-error message set and an empty list of results. *)
Theorem non_array_recommendations_reported post st data v :
  post (CardApp.request_body st) = Normal data ->
  get_field data (js "recommendations") = Normal v ->
  (forall items, v <> JArray items) ->
  CardApp.handleSubmit post st =
  (Normal tt,
   {| CardApp.zipCode := CardApp.zipCode st;
      CardApp.interests := CardApp.interests st;
      CardApp.recommendations := [];
      CardApp.loading := false;
      CardApp.error := js "Invalid response format from server";
      CardApp.userLocation := CardApp.userLocation st |}).
Proof.
  intros Hpost Hfield Hv.
  unfold CardApp.handleSubmit, Eff.try_finally, Eff.try_catch, Eff.bind, Eff.lift,
    Eff.get, CardApp.setLoading, CardApp.setError, CardApp.setRecommendations,
    Eff.modify, CardApp.request_body in *.
  cbn -[get_field js]. rewrite Hpost. cbn -[get_field js]. rewrite Hfield.
  destruct v; try reflexivity. now destruct (Hv items).
Qed.

Lemma non_array_recommendations_reported_witness :
  CardApp.handleSubmit
    (fun _ => Normal (JObject [(js "recommendations", JString (js "not an array"))]))
    {| CardApp.zipCode := js "94110"; CardApp.interests := js "music, art";
       CardApp.recommendations := [JNull]; CardApp.loading := false;
       CardApp.error := js "old"; CardApp.userLocation := [] |} =
  (Normal tt,
   {| CardApp.zipCode := js "94110"; CardApp.interests := js "music, art";
      CardApp.recommendations := []; CardApp.loading := false;
      CardApp.error := js "Invalid response format from server";
      CardApp.userLocation := [] |}).
Proof.
  refine (non_array_recommendations_reported
            (fun _ => Normal (JObject [(js "recommendations", JString (js "not an array"))]))
            {| CardApp.zipCode := js "94110"; CardApp.interests := js "music, art";
               CardApp.recommendations := [JNull]; CardApp.loading := false;
               CardApp.error := js "old"; CardApp.userLocation := [] |}
            (JObject [(js "recommendations", JString (js "not an array"))])
            (JString (js "not an array")) eq_refl eq_refl _).
  discriminate.
Defined.

(** C7: both submit handlers complete with the loading state cleared,
    whether the request succeeds, its answer has the wrong shape, or
    something is thrown on the way. *)
Theorem loading_cleared_on_every_exit :
  (forall post st,
     exists st', CardApp.handleSubmit post st = (Normal tt, st') /\
                 CardApp.loading st' = false) /\
  (forall post st,
     exists st', FrontendApp.handleSubmit post st = (Normal tt, st') /\
                 FrontendApp.loading st' = false).
Proof.
  split; intros post st.
  - unfold CardApp.handleSubmit, Eff.try_finally, Eff.try_catch, Eff.bind, Eff.lift,
      Eff.get, CardApp.setLoading, CardApp.setError, CardApp.setRecommendations,
      Eff.modify, CardApp.request_body.
    cbn. destruct (post _) as [data|e]; cbn; [|eexists; split; reflexivity].
    destruct (get_field data _) as [recs|e]; cbn; [|eexists; split; reflexivity].
    destruct recs; eexists; split; reflexivity.
  - unfold FrontendApp.handleSubmit, Eff.try_finally, Eff.try_catch, Eff.bind,
      Eff.lift, Eff.get, Eff.ret, FrontendApp.setLoading, FrontendApp.setError,
      FrontendApp.setEvents, Eff.modify.
    cbn. destruct (eqb _ _); cbn; [eexists; split; reflexivity|].
    destruct (FrontendApp.getRecommendations _ _) as [response|e]; cbn;
      [|eexists; split; reflexivity].
    destruct (get_field response _) as [recs|e]; cbn; [|eexists; split; reflexivity].
    destruct (length_is_zero recs) as [[|]|e]; cbn; eexists; split; reflexivity.
Qed.

(** ** JSON texts and the saved preferences *)

Section JsonFacts.

Import Json.

Lemma hex_value_hex_digit n : n < 16 -> hex_value (hex_digit n) = Some n.
Proof.
  intros Hn. unfold hex_digit, hex_value.
  destruct (N.ltb_spec n 10) as [Hdec|Hletter].
  - replace ((48 <=? 48 + n) && (48 + n <=? 57)) with true
      by (symmetry; apply andb_true_intro; split; apply N.leb_le; lia).
    f_equal. lia.
  - replace ((48 <=? 87 + n) && (87 + n <=? 57)) with false
      by (symmetry; apply andb_false_intro2; apply N.leb_gt; lia).
    replace ((97 <=? 87 + n) && (87 + n <=? 102)) with true
      by (symmetry; apply andb_true_intro; split; apply N.leb_le; lia).
    f_equal. lia.
Qed.

(** Four digits are enough for a code unit. *)
Lemma hex4_unicode_escape c :
  c < 65536 ->
  hex4 (hex_digit ((c / 4096) mod 16)) (hex_digit ((c / 256) mod 16))
       (hex_digit ((c / 16) mod 16)) (hex_digit (c mod 16)) = Some c.
Proof.
  intros Hc. unfold hex4.
  rewrite !hex_value_hex_digit by (apply N.mod_lt; discriminate).
  f_equal.
  pose proof (N.div_mod' c 16) as E1.
  pose proof (N.div_mod' (c / 16) 16) as E2.
  pose proof (N.div_mod' (c / 256) 16) as E3.
  pose proof (N.div_mod' (c / 4096) 16) as E4.
  rewrite N.Div0.div_div in E2, E3, E4.
  change (16 * 16) with 256 in E2. change (256 * 16) with 4096 in E3.
  change (4096 * 16) with 65536 in E4.
  rewrite (N.div_small c 65536 Hc) in E4. lia.
Qed.

Lemma parse_chars_unicode_escape c s :
  c < 65536 -> parse_chars (unicode_escape c ++ s) = push c (parse_chars s).
Proof.
  intros Hc. unfold unicode_escape.
  cbn -[hex4 N.div N.modulo parse_chars].
  change (parse_chars (92 :: 117 :: ?a :: ?b :: ?d :: ?e :: s))
    with (match hex4 a b d e, parse_chars s with
          | Some u, Some (t, rest) => Some (u :: t, rest)
          | _, _ => None
          end).
  rewrite hex4_unicode_escape by assumption. reflexivity.
Qed.

Lemma parse_chars_plain c s :
  c <> 34 -> c <> 92 -> 32 <= c -> parse_chars (c :: s) = push c (parse_chars s).
Proof.
  intros H34 H92 H32. simpl.
  apply N.eqb_neq in H34, H92. rewrite H34, H92.
  apply N.ltb_ge in H32. now rewrite H32.
Qed.

Lemma parse_chars_escape_unit c s :
  parse_chars (escape_unit c ++ s) = push c (parse_chars s).
Proof.
  unfold escape_unit.
  repeat match goal with
         | |- context [if ?x =? ?k then _ else _] =>
             destruct (N.eqb_spec x k) as [->|]; [reflexivity|]
         end.
  destruct (c <? 32) eqn:H32.
  - apply N.ltb_lt in H32. apply parse_chars_unicode_escape. lia.
  - apply N.ltb_ge in H32. now apply parse_chars_plain.
Qed.

Lemma surrogate_bounds c :
  is_leading_surrogate c = true \/ is_trailing_surrogate c = true ->
  c <> 34 /\ c <> 92 /\ 32 <= c /\ c < 65536.
Proof.
  unfold is_leading_surrogate, is_trailing_surrogate.
  intros [H|H]; apply andb_prop in H as [H1 H2];
    apply N.leb_le in H1, H2; lia.
Qed.

(** Reading back what [quote_units] wrote, up to the closing quote. *)
Lemma quote_units_cons c s :
  quote_units (c :: s) =
  if is_leading_surrogate c then
    match s with
    | d :: s' =>
        if is_trailing_surrogate d then c :: d :: quote_units s'
        else unicode_escape c ++ quote_units s
    | [] => unicode_escape c
    end
  else if is_trailing_surrogate c then unicode_escape c ++ quote_units s
  else escape_unit c ++ quote_units s.
Proof. reflexivity. Qed.

Lemma parse_chars_quote_units s rest :
  parse_chars (quote_units s ++ 34 :: rest) = Some (s, rest).
Proof.
  enough (H : parse_chars (quote_units s ++ 34 :: rest) = Some (s, rest) /\
              forall c, parse_chars (quote_units (c :: s) ++ 34 :: rest)
                        = Some (c :: s, rest))
    by apply H.
  induction s as [|d s [IH0 IH1]].
  - split; [reflexivity|]. intros c. rewrite quote_units_cons.
    destruct (is_leading_surrogate c) eqn:Hlead;
      [|destruct (is_trailing_surrogate c) eqn:Htrail].
    + destruct (surrogate_bounds c (or_introl Hlead)) as (_ & _ & _ & Hc).
      now rewrite parse_chars_unicode_escape.
    + destruct (surrogate_bounds c (or_intror Htrail)) as (_ & _ & _ & Hc).
      rewrite <- app_assoc. now rewrite parse_chars_unicode_escape.
    + rewrite <- app_assoc. now rewrite parse_chars_escape_unit.
  - split; [now apply IH1|]. intros c. rewrite quote_units_cons.
    destruct (is_leading_surrogate c) eqn:Hlead;
      [destruct (is_trailing_surrogate d) eqn:Hd2
      |destruct (is_trailing_surrogate c) eqn:Htrail].
    + destruct (surrogate_bounds c (or_introl Hlead)) as (? & ? & ? & _).
      destruct (surrogate_bounds d (or_intror Hd2)) as (? & ? & ? & _).
      cbn [app]. rewrite !parse_chars_plain by assumption.
      now rewrite IH0.
    + destruct (surrogate_bounds c (or_introl Hlead)) as (_ & _ & _ & Hc).
      rewrite <- app_assoc, parse_chars_unicode_escape by assumption.
      now rewrite (IH1 d).
    + destruct (surrogate_bounds c (or_intror Htrail)) as (_ & _ & _ & Hc).
      rewrite <- app_assoc, parse_chars_unicode_escape by assumption.
      now rewrite (IH1 d).
    + rewrite <- app_assoc, parse_chars_escape_unit.
      now rewrite (IH1 d).
Qed.

Lemma parse_elements_quote fuel x t :
  parse_elements (S fuel) (quote x ++ t) =
  match skip_ws t with
  | 44 :: s3 => option_map (cons x) (parse_elements fuel s3)
  | 93 :: s3 => match skip_ws s3 with [] => Some [x] | _ => None end
  | _ => None
  end.
Proof.
  unfold quote. rewrite <- app_comm_cons, <- app_assoc.
  change (parse_elements (S fuel) (34 :: ?s)) with
    (match parse_chars s with
     | Some (str, s2) =>
         match skip_ws s2 with
         | 44 :: s3 => option_map (cons str) (parse_elements fuel s3)
         | 93 :: s3 => match skip_ws s3 with [] => Some [str] | _ => None end
         | _ => None
         end
     | None => None
     end).
  change ([34] ++ t) with (34 :: t). now rewrite parse_chars_quote_units.
Qed.

Lemma join_cons_cons sep (a b : jsstring) l :
  join sep (a :: b :: l) = a ++ sep ++ join sep (b :: l).
Proof. reflexivity. Qed.

(** Reading back the elements that [stringify] wrote. *)
Lemma parse_elements_join l : forall x fuel,
  (length l < fuel)%nat ->
  parse_elements fuel (join [44] (List.map quote (x :: l)) ++ [93]) = Some (x :: l).
Proof.
  induction l as [|y l IH]; intros x [|fuel] Hfuel; try (simpl in Hfuel; lia).
  - simpl List.map. simpl join. now rewrite parse_elements_quote.
  - change (List.map quote (x :: y :: l)) with (quote x :: quote y :: List.map quote l).
    rewrite join_cons_cons, <- !app_assoc, parse_elements_quote.
    change (skip_ws ([44] ++ ?s)) with (44 :: s).
    cbv iota beta.
    change (quote y :: List.map quote l) with (List.map quote (y :: l)).
    rewrite IH by (simpl in Hfuel; lia). reflexivity.
Qed.

Lemma join_length sep (l : list jsstring) :
  Forall (fun a => (1 <= length a)%nat) l -> (length l <= length (join sep l))%nat.
Proof.
  induction 1 as [|a l Ha Hl IH]; [simpl; lia|].
  destruct l as [|b l]; [simpl; lia|].
  rewrite join_cons_cons, !length_app. simpl length at 1. simpl length in IH at 1.
  unfold jsstring in *. lia.
Qed.

Lemma parse_stringify strings : parse (stringify strings) = Some strings.
Proof.
  destruct strings as [|x l]; [reflexivity|].
  unfold parse, stringify.
  change (skip_ws (91 :: ?s)) with (91 :: s). cbv iota beta.
  set (s1 := join [44] (List.map quote (x :: l)) ++ [93]).
  assert (Hs1 : exists t, s1 = 34 :: t).
  { unfold s1. destruct l; simpl; eexists; reflexivity. }
  destruct Hs1 as (t & Hs1). rewrite Hs1 at 1.
  change (skip_ws (34 :: t)) with (34 :: t). cbv iota beta.
  apply parse_elements_join.
  simpl length. unfold s1. rewrite length_app.
  pose proof (join_length [44] (List.map quote (x :: l))) as Hlen.
  rewrite length_map in Hlen. simpl length in Hlen at 1.
  assert (Forall (fun a => (1 <= length a)%nat) (List.map quote (x :: l))).
  { apply List.Forall_forall. intros a Ha. apply in_map_iff in Ha as (b & <- & _).
    unfold quote. simpl. lia. }
  specialize (Hlen H). cbn [length] in *. unfold jsstring in *. lia.
Qed.

End JsonFacts.

(** C8: the interests saved under the key [interests] are read back as
    they were, in the same order, whatever strings they are; so are
    [music] and [art]. *)
Theorem interests_round_trip :
  (forall strings zip store,
     FrontendApp.getItem (js "interests")
       (FrontendApp.save_preferences
          {| FrontendApp.zip_code := zip; FrontendApp.interests := strings |} store)
     = Some (Json.stringify strings)) /\
  (forall strings, Json.parse (Json.stringify strings) = Some strings) /\
  (forall strings zip store st,
     exists st',
       FrontendApp.load_preferences
         (FrontendApp.save_preferences
            {| FrontendApp.zip_code := zip; FrontendApp.interests := strings |} store) st
       = (Normal tt, st') /\
       FrontendApp.interests (FrontendApp.preferences st') = strings) /\
  (forall strings zip store st,
     exists st' store',
       FrontendApp.mount
         (FrontendApp.save_preferences
            {| FrontendApp.zip_code := zip; FrontendApp.interests := strings |} store) st
       = (Normal store', st') /\
       FrontendApp.interests (FrontendApp.preferences st') = strings /\
       FrontendApp.getItem (js "interests") store' = Some (Json.stringify strings)) /\
  Json.stringify [js "music"; js "art"]
    = 91 :: 34 :: js "music" ++ 34 :: 44 :: 34 :: js "art" ++ [34; 93] /\
  Json.parse (Json.stringify [js "music"; js "art"]) = Some [js "music"; js "art"].
Proof.
  assert (Hget : forall strings zip store,
     FrontendApp.getItem (js "interests")
       (FrontendApp.save_preferences
          {| FrontendApp.zip_code := zip; FrontendApp.interests := strings |} store)
     = Some (Json.stringify strings)).
  { intros. unfold FrontendApp.getItem, FrontendApp.save_preferences, FrontendApp.setItem.
    apply lookup_insert_eq. }
  assert (Hload : forall strings zip store st,
     exists st',
       FrontendApp.load_preferences
         (FrontendApp.save_preferences
            {| FrontendApp.zip_code := zip; FrontendApp.interests := strings |} store) st
       = (Normal tt, st') /\
       FrontendApp.interests (FrontendApp.preferences st') = strings).
  { intros strings zip store st.
    unfold FrontendApp.load_preferences. rewrite Hget.
    unfold Eff.bind, Eff.get, Eff.ret, Eff.lift, FrontendApp.setPreferences, Eff.modify.
    assert (Ht : FrontendApp.truthy_item (Some (Json.stringify strings))
                 = Some (Json.stringify strings)) by reflexivity.
    rewrite Ht, parse_stringify.
    destruct (FrontendApp.truthy_item (FrontendApp.getItem (js "zipCode") _));
      eexists; split; reflexivity. }
  repeat split; try reflexivity.
  - exact Hget.
  - exact parse_stringify.
  - exact Hload.
  - intros strings zip store st.
    destruct (Hload strings zip store st) as (st' & Hrun & Hint).
    unfold FrontendApp.mount, Eff.bind, Eff.get, Eff.ret. rewrite Hrun.
    eexists. eexists. split; [reflexivity|]. split; [exact Hint|].
    unfold FrontendApp.getItem, FrontendApp.save_preferences, FrontendApp.setItem.
    rewrite Hint. apply lookup_insert_eq.
Qed.

(** ** The relevance badge *)

Section FloatFacts.

Local Open Scope Z_scope.

Lemma iter_pos_nat {A} (f : A -> A) p : forall x,
  SpecFloat.iter_pos f p x = Nat.iter (Pos.to_nat p) f x.
Proof.
  induction p as [p IH|p IH|]; intros x; cbn [SpecFloat.iter_pos].
  - rewrite !IH, Pos2Nat.inj_xI, Nat.iter_succ_r.
    replace (2 * Pos.to_nat p)%nat with (Pos.to_nat p + Pos.to_nat p)%nat by lia.
    now rewrite Nat.iter_add.
  - rewrite !IH, Pos2Nat.inj_xO.
    replace (2 * Pos.to_nat p)%nat with (Pos.to_nat p + Pos.to_nat p)%nat by lia.
    now rewrite Nat.iter_add.
  - reflexivity.
Qed.

Lemma shr_1_spec mrs :
  0 <= shr_m mrs ->
  shr_m (shr_1 mrs) = shr_m mrs / 2 /\
  (inexact (shr_1 mrs) = true -> inexact mrs = true \/ shr_m mrs mod 2 = 1).
Proof.
  destruct mrs as [m r s]. unfold inexact. cbn [shr_m shr_r shr_s]. intros Hm.
  assert (Hdiv : forall p, Z.pos p~1 / 2 = Z.pos p /\ Z.pos p~0 / 2 = Z.pos p /\
                           Z.pos p~1 mod 2 = 1).
  { intros p. rewrite Pos2Z.inj_xI, Pos2Z.inj_xO. repeat split.
    - symmetry. apply Z.div_unique with 1; lia.
    - symmetry. apply Z.div_unique with 0; lia.
    - symmetry. apply Z.mod_unique with (Z.pos p); lia. }
  destruct m as [|[p|p|]|p]; try lia;
    try destruct (Hdiv p) as (H1 & H0 & Hodd);
    destruct r, s; cbn; rewrite ?H1, ?H0; split; auto; discriminate.
Qed.

Lemma iter_shr_1 P n :
  0 <= P ->
  let mrs := Nat.iter n shr_1 {| shr_m := P; shr_r := false; shr_s := false |} in
  shr_m mrs = P / 2 ^ Z.of_nat n /\
  (inexact mrs = true -> P mod 2 ^ Z.of_nat n <> 0).
Proof.
  intros HP. induction n as [|n [IHm IHi]].
  - simpl. split; [now rewrite Z.div_1_r|discriminate].
  - cbn zeta in *. rewrite Nat.iter_succ.
    set (mrs := Nat.iter n shr_1 _) in *.
    assert (Hpos : 0 < 2 ^ Z.of_nat n) by (apply Z.pow_pos_nonneg; lia).
    assert (Hm : 0 <= shr_m mrs) by (rewrite IHm; apply Z.div_pos; lia).
    destruct (shr_1_spec mrs Hm) as [Hm1 Hi1].
    rewrite Nat2Z.inj_succ, Z.pow_succ_r by lia.
    split.
    + rewrite Hm1, IHm, Z.div_div by lia. f_equal. lia.
    + intros Hin Hzero.
      apply Z.mod_divide in Hzero; [|lia]. destruct Hzero as [t Ht].
      assert (Hdiv : P / 2 ^ Z.of_nat n = 2 * t).
      { rewrite Ht. replace (t * (2 * 2 ^ Z.of_nat n)) with (2 * t * 2 ^ Z.of_nat n) by lia.
        apply Z.div_mul. lia. }
      assert (Hmod : P mod 2 ^ Z.of_nat n = 0).
      { rewrite Ht. replace (t * (2 * 2 ^ Z.of_nat n)) with (2 * t * 2 ^ Z.of_nat n) by lia.
        apply Z.mod_mul. lia. }
      destruct (Hi1 Hin) as [Hprev|Hodd].
      * now apply IHi.
      * rewrite IHm, Hdiv in Hodd.
        replace (2 * t) with (t * 2) in Hodd by lia.
        rewrite Z.mod_mul in Hodd by lia. discriminate.
Qed.

(** What [shr] leaves of a mantissa, and when it reports lost bits. *)
Lemma shr_spec P e n :
  0 <= P ->
  let k := Z.max 0 n in
  let '(mrs, e') := shr {| shr_m := P; shr_r := false; shr_s := false |} e n in
  e' = e + k /\ shr_m mrs = P / 2 ^ k /\ (inexact mrs = true -> P mod 2 ^ k <> 0).
Proof.
  intros HP. destruct n as [|p|p]; simpl.
  - rewrite Z.div_1_r. repeat split; try lia. discriminate.
  - rewrite iter_pos_nat.
    destruct (iter_shr_1 P (Pos.to_nat p) HP) as [Hm Hi].
    rewrite positive_nat_Z in Hm, Hi. repeat split; assumption.
  - rewrite Z.div_1_r. repeat split; try lia. discriminate.
Qed.

(** Rounding to nearest never goes past an integer bound that the exact
    value does not pass. *)
Lemma round_nearest_even_le P k H mrs :
  0 <= P -> 0 <= k -> P <= H * 2 ^ k ->
  shr_m mrs = P / 2 ^ k ->
  (inexact mrs = true -> P mod 2 ^ k <> 0) ->
  0 <= round_nearest_even (shr_m mrs) (loc_of_shr_record mrs) <= H.
Proof.
  intros HP Hk Hle Hm Hi.
  assert (Hpow : 0 < 2 ^ k) by (apply Z.pow_pos_nonneg; lia).
  assert (Hfloor : 0 <= P / 2 ^ k <= H).
  { split; [apply Z.div_pos; lia|].
    apply Z.div_le_upper_bound; lia. }
  assert (Hstrict : inexact mrs = true -> P / 2 ^ k + 1 <= H).
  { intros Hin. specialize (Hi Hin).
    assert (P <> H * 2 ^ k).
    { intros ->. now rewrite Z.mod_mul in Hi by lia. }
    assert (P / 2 ^ k < H) by (apply Z.div_lt_upper_bound; lia).
    lia. }
  destruct mrs as [m r s]. unfold inexact in *. cbn [shr_m shr_r shr_s] in *. subst m.
  destruct r, s; cbn [loc_of_shr_record round_nearest_even];
    try destruct (Z.even _); try specialize (Hstrict eq_refl); lia.
Qed.

Lemma digits2_pos_size p : digits2_pos p = Pos.size p.
Proof. induction p; simpl; congruence. Qed.

Lemma digits2_pos_le p : 2 ^ Z.pos (digits2_pos p) <= 2 * Z.pos p.
Proof.
  rewrite digits2_pos_size. pose proof (Pos.size_le p) as H.
  apply Pos2Z.pos_le_pos in H. now rewrite Pos2Z.inj_pow, Pos2Z.inj_xO in H.
Qed.

Lemma Zdigits2_le m c e :
  0 <= m -> 0 < c -> 0 <= e -> m < 2 ^ c * 2 ^ e -> Zdigits2 m <= c + e.
Proof.
  intros Hm Hc He Hlt. destruct m as [|p|p]; simpl; try lia.
  pose proof (digits2_pos_le p) as Hd.
  rewrite <- Z.pow_add_r in Hlt by lia.
  assert (2 ^ Z.pos (digits2_pos p) < 2 ^ (c + e + 1)).
  { rewrite (Z.pow_add_r _ _ 1) by lia. lia. }
  apply Z.pow_lt_mono_r_iff in H; lia.
Qed.

Lemma fexp_small d : d <= 7 -> fexp 53 1024 d <= 0.
Proof. unfold fexp, emin. lia. Qed.

(** A product whose exact value is 100 at most rounds to a binary64 value
    that is 100 at most. *)
Lemma binary_round_aux_le_100 P E :
  E <= 0 -> 0 <= P <= 100 * 2 ^ (- E) ->
  binary_round_aux 53 1024 false P E loc_Exact = S754_zero false \/
  exists m e,
    binary_round_aux 53 1024 false P E loc_Exact = S754_finite false m e /\
    e <= 0 /\ Z.pos m <= 100 * 2 ^ (- e).
Proof.
  intros HE [HP0 HP].
  unfold binary_round_aux, shr_fexp. cbn [shr_record_of_loc].
  (* first shift *)
  set (k1 := fexp 53 1024 (Zdigits2 P + E) - E).
  pose proof (shr_spec P E k1 HP0) as H1. cbv zeta in H1.
  destruct (shr _ E k1) as [mrs1 e1]. destruct H1 as (He1 & Hm1 & Hi1).
  assert (HpowE : 0 < 2 ^ (- E)) by (apply Z.pow_pos_nonneg; lia).
  assert (HdP : Zdigits2 P + E <= 7).
  { assert (Zdigits2 P <= 7 + - E); [|lia].
    apply Zdigits2_le; lia. }
  assert (He1' : e1 <= 0).
  { pose proof (fexp_small _ HdP). unfold k1 in He1. lia. }
  assert (HK1 : 0 <= Z.max 0 k1) by lia.
  assert (Hsplit1 : 2 ^ (- E) = 2 ^ (- e1) * 2 ^ Z.max 0 k1).
  { rewrite <- Z.pow_add_r by lia. f_equal. lia. }
  assert (Hr : 0 <= round_nearest_even (shr_m mrs1) (loc_of_shr_record mrs1)
               <= 100 * 2 ^ (- e1)).
  { apply (round_nearest_even_le P (Z.max 0 k1)); try assumption. rewrite Hsplit1 in HP. lia. }
  set (m2 := round_nearest_even (shr_m mrs1) (loc_of_shr_record mrs1)) in *.
  (* second shift *)
  set (k2 := fexp 53 1024 (Zdigits2 m2 + e1) - e1).
  pose proof (shr_spec m2 e1 k2 (proj1 Hr)) as H2. cbv zeta in H2.
  destruct (shr _ e1 k2) as [mrs2 e2]. destruct H2 as (He2 & Hm2 & _).
  assert (Hpowe1 : 0 < 2 ^ (- e1)) by (apply Z.pow_pos_nonneg; lia).
  assert (Hd2 : Zdigits2 m2 + e1 <= 7).
  { assert (Zdigits2 m2 <= 7 + - e1); [|lia].
    apply Zdigits2_le; lia. }
  assert (He2' : e2 <= 0).
  { pose proof (fexp_small _ Hd2). unfold k2 in He2. lia. }
  assert (Hsplit2 : 2 ^ (- e1) = 2 ^ (- e2) * 2 ^ Z.max 0 k2).
  { rewrite <- Z.pow_add_r by lia. f_equal. lia. }
  assert (Hpowk2 : 0 < 2 ^ Z.max 0 k2) by (apply Z.pow_pos_nonneg; lia).
  assert (Hm3 : 0 <= shr_m mrs2 <= 100 * 2 ^ (- e2)).
  { rewrite Hm2. split; [apply Z.div_pos; lia|].
    apply Z.div_le_upper_bound; [lia|]. rewrite Hsplit2 in Hr. lia. }
  destruct (shr_m mrs2) as [|m3|m3]; [now left| |lia].
  right. exists m3, e2.
  replace (e2 <=? 1024 - 53) with true by (symmetry; apply Z.leb_le; lia).
  repeat split; lia.
Qed.

Lemma nearest_integer_is_nearest m e : is_nearest m e (nearest_integer m e).
Proof.
  destruct e as [|p|p]; simpl; try reflexivity.
  assert (Hpow : 2 ^ Z.pos p = 2 * 2 ^ (Z.pos p - 1)).
  { rewrite <- Z.pow_succ_r by lia. f_equal. lia. }
  assert (Hh : 0 < 2 ^ (Z.pos p - 1)) by (apply Z.pow_pos_nonneg; lia).
  set (h := 2 ^ (Z.pos p - 1)) in *. rewrite Hpow.
  pose proof (Z.div_mod (Z.pos m + h) (2 * h) ltac:(lia)) as Hdm.
  pose proof (Z.mod_pos_bound (Z.pos m + h) (2 * h) ltac:(lia)) as Hb.
  set (n := (Z.pos m + h) / (2 * h)) in *. nia.
Qed.

Lemma nearest_integer_le_100 m e :
  e <= 0 -> Z.pos m <= 100 * 2 ^ (- e) ->
  0 <= nearest_integer m e <= 100 /\ at_least_1e21 m e = false.
Proof.
  intros He Hm. destruct e as [|p|p]; try lia.
  - simpl in *. split; [lia|]. apply Z.leb_gt. lia.
  - change (- Z.neg p) with (Z.pos p) in Hm.
    unfold nearest_integer, at_least_1e21.
    assert (Hpow : 2 ^ Z.pos p = 2 * 2 ^ (Z.pos p - 1)).
    { rewrite <- Z.pow_succ_r by lia. f_equal. lia. }
    assert (Hh : 0 < 2 ^ (Z.pos p - 1)) by (apply Z.pow_pos_nonneg; lia).
    set (h := 2 ^ (Z.pos p - 1)) in *. rewrite Hpow in *.
    repeat split.
    + apply Z.div_pos; lia.
    + assert ((Z.pos m + h) / (2 * h) < 101); [|lia].
      apply Z.div_lt_upper_bound; lia.
    + apply Z.leb_gt. change (10 ^ 21) with 1000000000000000000000. lia.
Qed.

Lemma valid_binary_mantissa m e :
  valid_binary 53 1024 (S754_finite false m e) = true -> Z.pos m < 2 ^ 53.
Proof.
  unfold valid_binary, bounded, canonical_mantissa, fexp, emin.
  intros H. apply andb_prop in H as [H _]. apply Z.eqb_eq in H.
  assert (Hd : Z.pos (digits2_pos m) <= 53) by lia.
  rewrite digits2_pos_size in Hd.
  pose proof (Pos.size_gt m) as Hgt. apply Pos2Z.pos_lt_pos in Hgt.
  rewrite Pos2Z.inj_pow in Hgt.
  apply Z.lt_le_trans with (2 ^ Z.pos (Pos.size m)); [assumption|].
  apply Z.pow_le_mono_r; lia.
Qed.

Lemma SFleb_finite m1 e1 m2 e2 :
  SFleb (S754_finite false m1 e1) (S754_finite false m2 e2) = true ->
  e1 < e2 \/ (e1 = e2 /\ Z.pos m1 <= Z.pos m2).
Proof.
  unfold SFleb, SFcompare.
  destruct (Z.compare_spec e1 e2) as [->|Hlt|Hgt]; [|now left|discriminate].
  fold (Pos.compare m1 m2).
  destruct (Pos.compare_spec m1 m2) as [->|Hlt|Hgt]; try discriminate; intros _; right.
  - split; [reflexivity|lia].
  - split; [reflexivity|]. apply Pos2Z.pos_lt_pos in Hlt. lia.
Qed.

(** The binary64 values of the interval from 0 to 1 that are truthy. *)
Lemma unit_interval score :
  valid_binary 53 1024 score = true ->
  truthy_number score = true ->
  SFleb (S754_zero false) score = true ->
  SFleb score one = true ->
  exists m e, score = S754_finite false m e /\ e <= -52 /\ Z.pos m <= 2 ^ (- e).
Proof.
  intros Hvalid Htruthy Hlow Hhigh.
  destruct score as [s|s| |s m e].
  - discriminate Htruthy.
  - destruct s; [discriminate Hlow|discriminate Hhigh].
  - discriminate Htruthy.
  - destruct s; [discriminate Hlow|].
    exists m, e. split; [reflexivity|].
    pose proof (valid_binary_mantissa m e Hvalid) as Hm.
    destruct (SFleb_finite _ _ _ _ Hhigh) as [Hlt|[-> Hle]].
    + split; [lia|].
      apply Z.le_trans with (2 ^ 53); [lia|]. apply Z.pow_le_mono_r; lia.
    + split; [lia|]. exact Hle.
Qed.

(** The percentage of a score between 0 and 1. *)
Lemma percentage_in_range score :
  valid_binary 53 1024 score = true ->
  truthy_number score = true ->
  SFleb (S754_zero false) score = true ->
  SFleb score one = true ->
  exists n,
    toFixed0 (mul score hundred) = decimal n /\ 0 <= n <= 100 /\
    (mul score hundred = S754_zero false /\ n = 0 \/
     exists m e, mul score hundred = S754_finite false m e /\ is_nearest m e n).
Proof.
  intros Hvalid Htruthy Hlow Hhigh.
  destruct (unit_interval score Hvalid Htruthy Hlow Hhigh) as (m & e & -> & He & Hm).
  unfold mul, hundred, SFmul. cbn [xorb].
  assert (Hpow : 2 ^ (- (e + -46)) = 2 ^ (- e) * 2 ^ 46).
  { rewrite <- Z.pow_add_r by lia. f_equal. lia. }
  assert (Hpos : 0 < 2 ^ (- e)) by (apply Z.pow_pos_nonneg; lia).
  destruct (binary_round_aux_le_100 (Z.pos (m * 7036874417766400)) (e + -46))
    as [Hz|(m3 & e3 & Hf & He3 & Hm3)].
  - lia.
  - rewrite Hpow, Pos2Z.inj_mul. change (2 ^ 46) with 70368744177664. lia.
  - rewrite Hz. exists 0. split; [reflexivity|]. split; [lia|]. now left.
  - rewrite Hf. destruct (nearest_integer_le_100 m3 e3 He3 Hm3) as [Hn Hbig].
    exists (nearest_integer m3 e3). split; [|split; [assumption|]].
    + unfold toFixed0. now rewrite Hbig.
    + right. exists m3, e3. split; [reflexivity|apply nearest_integer_is_nearest].
Qed.

End FloatFacts.

(** C6: a record whose relevance score is 0 gets no percentage.  The guard
    [rec.relevance_score && ...] evaluates to the number itself, and the
    page shows the bare text [0] where [(0 * 100).toFixed(0)], which is
    [0], would give [Relevance: 0%]; the same holds for the score [-0]. *)
Theorem zero_score_renders_bare_zero :
  CardApp.relevance_score (card_with_score (Some (S754_zero false)))
    = Some (S754_zero false) /\
  SFleb (S754_zero false) (S754_zero false) = true /\
  SFleb (S754_zero false) one = true /\
  toFixed0 (mul (S754_zero false) hundred) = js "0" /\
  CardApp.relevance_badge (card_with_score (Some (S754_zero false)))
    = CardApp.TextNode (Some (js "0")) /\
  CardApp.relevance_badge (card_with_score (Some (S754_zero false)))
    <> CardApp.Element (js "Relevance: 0%") /\
  CardApp.relevance_badge (card_with_score (Some (S754_zero true)))
    = CardApp.TextNode (Some (js "0")).
Proof.
  repeat split; try reflexivity. discriminate.
Qed.

(** ** Lines of a block *)

Section LineFacts.

Import CardApp.

Lemma parseRecommendation_record_of_lines text :
  parseRecommendation text = record_of_lines (non_empty_lines text).
Proof. reflexivity. Qed.

Lemma split_cons_nonempty sep s : split sep s <> [].
Proof.
  destruct s as [|c s]; simpl; [discriminate|].
  destruct (c =? sep); [discriminate|]. destruct (split sep s); discriminate.
Qed.

Lemma split_app sep a b : split sep (a ++ sep :: b) = split sep a ++ split sep b.
Proof.
  induction a as [|c a IH]; simpl.
  - now rewrite N.eqb_refl.
  - destruct (c =? sep); [now rewrite IH|].
    rewrite IH. pose proof (split_cons_nonempty sep a) as Hne.
    destruct (split sep a); [contradiction|reflexivity].
Qed.

Lemma non_empty_lines_app a b :
  non_empty_lines (a ++ 10 :: b) = non_empty_lines a ++ non_empty_lines b.
Proof. unfold non_empty_lines. now rewrite split_app, List.filter_app. Qed.

Lemma split_no_separator sep s :
  forallb (fun c => negb (c =? sep)) s = true -> split sep s = [s].
Proof.
  induction s as [|c s IH]; simpl; [reflexivity|].
  intros H. apply andb_prop in H as [Hc Hs]. apply negb_true_iff in Hc.
  now rewrite Hc, IH.
Qed.

Lemma trim_white w : white w = true -> trim w = [].
Proof. intros Hw. unfold trim. now rewrite (trimStart_all_ws w Hw). Qed.

Lemma split_white sep w :
  white w = true -> List.Forall (fun piece => white piece = true) (split sep w).
Proof.
  unfold white. induction w as [|c w IH]; simpl; intros Hw.
  - repeat constructor.
  - apply andb_prop in Hw as [Hc Hw]. specialize (IH Hw).
    destruct (c =? sep); [constructor; [reflexivity|assumption]|].
    destruct (split sep w) as [|piece pieces]; [repeat constructor; simpl; now rewrite Hc|].
    inversion IH; subst. constructor; [simpl; now rewrite Hc|assumption].
Qed.

(** White space, line feeds included, leaves no line. *)
Lemma non_empty_lines_white w : white w = true -> non_empty_lines w = [].
Proof.
  intros Hw. unfold non_empty_lines.
  pose proof (split_white 10 w Hw) as Hall.
  induction Hall as [|piece pieces Hp _ IH]; simpl; [reflexivity|].
  rewrite (trim_white piece Hp). simpl. exact IH.
Qed.

(** A line of its own. *)
Lemma non_empty_lines_line l :
  no_line_feed l = true ->
  non_empty_lines l = if eqb (trim l) [] then [] else [l].
Proof.
  intros Hl. unfold non_empty_lines. rewrite (split_no_separator 10 l Hl). simpl.
  now destruct (eqb (trim l) []).
Qed.

End LineFacts.

(** X1: lines of white space change nothing: a block parses the same with
    or without them, whether they come first, last or between two lines. *)
Theorem blank_lines_are_ignored a w b :
  white w = true ->
  CardApp.parseRecommendation (a ++ 10 :: w ++ 10 :: b)
    = CardApp.parseRecommendation (a ++ 10 :: b) /\
  CardApp.parseRecommendation (w ++ 10 :: b) = CardApp.parseRecommendation b /\
  CardApp.parseRecommendation (a ++ 10 :: w) = CardApp.parseRecommendation a.
Proof.
  intros Hw. rewrite !parseRecommendation_record_of_lines.
  rewrite !non_empty_lines_app, (non_empty_lines_white w Hw).
  rewrite app_nil_r. repeat split; reflexivity.
Qed.

Lemma blank_lines_are_ignored_witness :
  CardApp.parseRecommendation
    (js "- Jazz Night" ++ 10 :: js "   " ++ 10 :: js "Date: Friday")
    = CardApp.parseRecommendation (js "- Jazz Night" ++ 10 :: js "Date: Friday").
Proof.
  exact (proj1 (blank_lines_are_ignored (js "- Jazz Night") (js "   ") (js "Date: Friday")
                  eq_refl)).
Defined.

(** ** Further properties of [parseRecommendation] *)

Section FieldFacts.

Import CardApp.

Lemma trimStart_head s :
  trimStart s = [] \/ exists c t, trimStart s = c :: t /\ is_ws c = false.
Proof.
  induction s as [|c s IH]; simpl; [now left|].
  destruct (is_ws c) eqn:Hc; [exact IH|]. right. now exists c, s.
Qed.

Lemma trimEnd_cons_visible c s : is_ws c = false -> trimEnd (c :: s) = c :: trimEnd s.
Proof. intros Hc. simpl. rewrite Hc. now destruct (trimEnd s). Qed.

Lemma trim_idem s : trim (trim s) = trim s.
Proof.
  unfold trim. destruct (trimStart_head s) as [->|(c & t & -> & Hc)]; [reflexivity|].
  rewrite (trimEnd_cons_visible c t Hc). simpl trimStart. rewrite Hc.
  rewrite <- (trimEnd_cons_visible c t Hc). apply trimEnd_idem.
Qed.

Lemma trim_trimStart s : trim (trimStart s) = trim s.
Proof.
  unfold trim. f_equal.
  destruct (trimStart_head s) as [->|(c & t & -> & Hc)]; [reflexivity|].
  simpl. now rewrite Hc.
Qed.

Lemma or_default_trimmed v d :
  trim d = d -> (forall s, v = Some s -> trim s = s) -> trim (or_default v d) = or_default v d.
Proof.
  intros Hd Hv. destruct v as [[|c s]|]; simpl; auto.
Qed.

Lemma labelled_trimmed label lines s :
  labelled label lines = Some s -> trim s = s.
Proof.
  unfold labelled. destruct (find_label label lines); simpl; [|discriminate].
  intros H. injection H as <-. apply trim_idem.
Qed.

(** Lines that are equal once trimmed carry the same labelled texts. *)
Lemma labelled_trim_congruence c p lines lines' :
  is_ws c = false ->
  Forall2 (fun x y => trim x = trim y) lines lines' ->
  labelled (c :: p) lines = labelled (c :: p) lines'.
Proof.
  intros Hc Hall. rewrite !labelled_text_after_label by assumption.
  unfold find_label, text_after_label.
  induction Hall as [|x y lines lines' Hxy _ IH]; [reflexivity|].
  cbn [List.find]. rewrite Hxy.
  destruct (startsWith (c :: p) (trim y)); [cbn [option_map]; now rewrite Hxy|exact IH].
Qed.

Lemma find_label_skip label before x after :
  carries label x = false ->
  find_label label (before ++ x :: after) = find_label label (before ++ after).
Proof.
  unfold find_label, carries. intros Hx.
  induction before as [|l before IH]; simpl; [now rewrite Hx|].
  destruct (startsWith label (trim l)); [reflexivity|exact IH].
Qed.

Lemma find_unique_permutation {A} (p : A -> bool) l l' :
  Permutation l l' ->
  (forall x y, In x l -> In y l -> p x = true -> p y = true -> x = y) ->
  List.find p l = List.find p l'.
Proof.
  intros Hperm Huniq.
  destruct (List.find p l) as [x|] eqn:Hx, (List.find p l') as [y|] eqn:Hy;
    try reflexivity.
  - apply find_some in Hx as [Hxin Hpx]. apply find_some in Hy as [Hyin Hpy].
    f_equal. apply Huniq; auto.
    apply (Permutation_in _ (Permutation_sym Hperm)). assumption.
  - apply find_some in Hx as [Hxin Hpx].
    pose proof (find_none _ _ Hy x (Permutation_in _ Hperm Hxin)). congruence.
  - apply find_some in Hy as [Hyin Hpy].
    pose proof (find_none _ _ Hx y (Permutation_in _ (Permutation_sym Hperm) Hyin)).
    congruence.
Qed.

Lemma filter_permutation {A} (p : A -> bool) l l' :
  Permutation l l' -> Permutation (List.filter p l) (List.filter p l').
Proof.
  induction 1 as [|x l l' _ IH|x y l|l l' l'' _ IH1 _ IH2]; simpl.
  - constructor.
  - destruct (p x); [now constructor|assumption].
  - destruct (p x), (p y); try reflexivity. constructor.
  - now transitivity (List.filter p l').
Qed.

(** The lines of a block written line by line. *)
Lemma non_empty_lines_unlines ls :
  List.Forall (fun l => no_line_feed l = true) ls ->
  non_empty_lines (unlines ls) = List.filter (fun l => negb (eqb (trim l) [])) ls.
Proof.
  induction 1 as [|l ls Hl _ IH]; [reflexivity|].
  destruct ls as [|l2 ls].
  - simpl unlines. rewrite (non_empty_lines_line l Hl). simpl.
    now destruct (eqb (trim l) []).
  - change (unlines (l :: l2 :: ls)) with (l ++ 10 :: unlines (l2 :: ls)).
    rewrite non_empty_lines_app, IH, (non_empty_lines_line l Hl).
    simpl List.filter at 2. now destruct (eqb (trim l) []).
Qed.

End FieldFacts.

(** X2: no text of a parsed record starts or ends with white space:
    the title, the description, the date, the location, the price and each
    category are what [trim] leaves of themselves. *)
Theorem parsed_fields_are_trimmed text rec :
  CardApp.parseRecommendation text = Normal (Some rec) ->
  trim (CardApp.title rec) = CardApp.title rec /\
  trim (CardApp.description rec) = CardApp.description rec /\
  trim (CardApp.date rec) = CardApp.date rec /\
  trim (CardApp.location rec) = CardApp.location rec /\
  (forall p, CardApp.price rec = Some p -> trim p = p) /\
  (forall cats c, CardApp.categories rec = Some cats -> In c cats -> trim c = c).
Proof.
  intros Hparse.
  destruct (length (CardApp.non_empty_lines text) <? 2)%nat eqn:Hlen.
  - rewrite (parseRecommendation_rejects text Hlen) in Hparse. discriminate.
  - destruct (parseRecommendation_accepts text Hlen) as (line0 & _ & Heq).
    rewrite Heq in Hparse. injection Hparse as <-.
    cbn [CardApp.title CardApp.description CardApp.date CardApp.location
         CardApp.price CardApp.categories].
    repeat split.
    + apply trim_idem.
    + apply or_default_trimmed; [reflexivity|apply labelled_trimmed].
    + apply or_default_trimmed; [reflexivity|apply labelled_trimmed].
    + apply or_default_trimmed; [reflexivity|apply labelled_trimmed].
    + apply labelled_trimmed.
    + intros cats c Hcats Hin.
      destruct (CardApp.labelled (js "Categories:") _); [|discriminate].
      injection Hcats as <-. apply in_map_iff in Hin as (piece & <- & _).
      apply trim_idem.
Qed.

Lemma parsed_fields_are_trimmed_witness :
  trim (js "Jazz Night") = js "Jazz Night" /\
  trim (js "Live jazz") = js "Live jazz" /\
  trim (js "Date not specified") = js "Date not specified" /\
  trim (js "Location not specified") = js "Location not specified" /\
  (forall p, Some (js "$5") = Some p -> trim p = p) /\
  (forall cats c, Some [js "Music"; js "Art"] = Some cats -> In c cats -> trim c = c).
Proof.
  exact (parsed_fields_are_trimmed
           (unlines [js "-  Jazz Night "; js " Description:  Live jazz ";
                     js "Price: $5 "; js "Categories: Music , Art"])
           {| CardApp.title := js "Jazz Night";
              CardApp.description := js "Live jazz";
              CardApp.date := js "Date not specified";
              CardApp.location := js "Location not specified";
              CardApp.price := Some (js "$5");
              CardApp.categories := Some [js "Music"; js "Art"];
              CardApp.url := None; CardApp.relevance_score := None;
              CardApp.reasoning := None; CardApp.personalization := None |}
           eq_refl).
Defined.

(** X3: white space around a line that is not the first one changes
    nothing: two blocks that differ by one such line, equal once trimmed,
    parse to the same result. *)
Theorem line_indentation_is_ignored a l l' b :
  no_line_feed l = true -> no_line_feed l' = true ->
  trim l = trim l' ->
  CardApp.non_empty_lines a <> [] ->
  CardApp.parseRecommendation (a ++ 10 :: l ++ 10 :: b)
    = CardApp.parseRecommendation (a ++ 10 :: l' ++ 10 :: b).
Proof.
  intros Hl Hl' Htrim Ha. rewrite !parseRecommendation_record_of_lines.
  rewrite !non_empty_lines_app, (non_empty_lines_line l Hl), (non_empty_lines_line l' Hl').
  rewrite <- Htrim. destruct (eqb (trim l) []); [reflexivity|].
  destruct (CardApp.non_empty_lines a) as [|line0 A]; [contradiction|].
  set (B := CardApp.non_empty_lines b).
  assert (Hall : Forall2 (fun x y => trim x = trim y)
                         ((line0 :: A) ++ [l] ++ B) ((line0 :: A) ++ [l'] ++ B)).
  { apply Forall2_app; [|apply Forall2_app].
    - clear. induction (line0 :: A); constructor; auto.
    - repeat constructor. exact Htrim.
    - clear. induction B; constructor; auto. }
  unfold record_of_lines. rewrite !length_app. cbn [length nth_error app].
  destruct (_ <? 2)%nat; [reflexivity|].
  change (js "Description:") with (68 :: js "escription:").
  change (js "Location:") with (76 :: js "ocation:").
  change (js "Date:") with (68 :: js "ate:").
  change (js "Price:") with (80 :: js "rice:").
  change (js "Categories:") with (67 :: js "ategories:").
  now rewrite !(fun c p Hc => labelled_trim_congruence c p _ _ Hc Hall) by reflexivity.
Qed.

Lemma line_indentation_is_ignored_witness :
  CardApp.parseRecommendation
    (js "- Jazz Night" ++ 10 :: js "   Date: Friday  " ++ 10 :: js "Price: $5")
  = CardApp.parseRecommendation
    (js "- Jazz Night" ++ 10 :: js "Date: Friday" ++ 10 :: js "Price: $5").
Proof.
  refine (line_indentation_is_ignored (js "- Jazz Night") (js "   Date: Friday  ")
            (js "Date: Friday") (js "Price: $5") eq_refl eq_refl eq_refl _).
  discriminate.
Defined.

Section TitleFacts.

Import CardApp.

Lemma no_line_feed_app s t :
  no_line_feed (s ++ t) = no_line_feed s && no_line_feed t.
Proof. apply forallb_app. Qed.

Lemma trim_visible_cons c s : is_ws c = false -> trim (c :: s) = c :: trimEnd s.
Proof.
  intros Hc. unfold trim. cbn [trimStart]. rewrite Hc.
  now apply trimEnd_cons_visible.
Qed.

(** A block whose first line is not blank and which has another line
    left. *)
Lemma record_of_first_line line0 b :
  no_line_feed line0 = true -> trim line0 <> [] -> non_empty_lines b <> [] ->
  exists rec,
    parseRecommendation (line0 ++ 10 :: b) = Normal (Some rec) /\
    title rec = trim (replace_leading_dash line0).
Proof.
  intros Hl Hne Hb. rewrite parseRecommendation_record_of_lines.
  rewrite non_empty_lines_app, (non_empty_lines_line line0 Hl).
  destruct (eqb (trim line0) []) eqn:E; [apply eqb_nil in E; contradiction|].
  destruct (non_empty_lines b) as [|l B]; [contradiction|].
  eexists. split; reflexivity.
Qed.

End TitleFacts.

(** X4: the bullet is stripped only where the line starts with it.  After
    leading white space the dash stays in the title. *)
Theorem indented_bullet_is_kept w r b :
  white w = true -> w <> [] ->
  no_line_feed w = true -> no_line_feed r = true ->
  CardApp.non_empty_lines b <> [] ->
  exists rec1 rec2,
    CardApp.parseRecommendation ((45 :: r) ++ 10 :: b) = Normal (Some rec1) /\
    CardApp.title rec1 = trim r /\
    CardApp.parseRecommendation ((w ++ 45 :: r) ++ 10 :: b) = Normal (Some rec2) /\
    CardApp.title rec2 = 45 :: trimEnd r.
Proof.
  intros Hw Hne Hwl Hrl Hb.
  assert (Hdash : trim (45 :: r) = 45 :: trimEnd r) by now apply trim_visible_cons.
  destruct (record_of_first_line (45 :: r) b) as (rec1 & Hp1 & Ht1); auto.
  { rewrite Hdash. discriminate. }
  destruct (record_of_first_line (w ++ 45 :: r) b) as (rec2 & Hp2 & Ht2); auto.
  { rewrite no_line_feed_app, Hwl. exact Hrl. }
  { rewrite trim_ws_app by exact Hw. rewrite Hdash. discriminate. }
  exists rec1, rec2. repeat split; try assumption.
  - rewrite Ht1. cbn [replace_leading_dash]. apply trim_trimStart.
  - rewrite Ht2. destruct w as [|c w]; [contradiction|].
    assert (Hc : is_ws c = true) by (simpl in Hw; now apply andb_prop in Hw).
    assert (c <> 45) by (intros ->; discriminate).
    assert (Hkeep : replace_leading_dash ((c :: w) ++ 45 :: r) = (c :: w) ++ 45 :: r).
    { cbn [app]. unfold replace_leading_dash.
      destruct c as [|p]; [reflexivity|].
      do 6 (destruct p as [p|p|]; try reflexivity). congruence. }
    rewrite Hkeep, trim_ws_app by exact Hw. exact Hdash.
Qed.

Lemma indented_bullet_is_kept_witness :
  exists rec1 rec2,
    CardApp.parseRecommendation ((45 :: js " Jazz Night") ++ 10 :: js "Date: Friday")
      = Normal (Some rec1) /\
    CardApp.title rec1 = trim (js " Jazz Night") /\
    CardApp.parseRecommendation ((js "  " ++ 45 :: js " Jazz Night") ++ 10 :: js "Date: Friday")
      = Normal (Some rec2) /\
    CardApp.title rec2 = 45 :: trimEnd (js " Jazz Night").
Proof.
  refine (indented_bullet_is_kept (js "  ") (js " Jazz Night") (js "Date: Friday")
            eq_refl _ eq_refl eq_refl _); discriminate.
Defined.

(** X5: the lines after the first one can come in any order, as long as no
    two different lines carry the same label: the parsed record is the
    same. *)
Theorem labelled_lines_can_be_reordered line0 rest rest' :
  List.Forall (fun l => no_line_feed l = true) (line0 :: rest) ->
  trim line0 <> [] ->
  Permutation rest rest' ->
  (forall label x y,
     In label labels -> In x rest -> In y rest ->
     carries label x = true -> carries label y = true -> x = y) ->
  CardApp.parseRecommendation (unlines (line0 :: rest))
    = CardApp.parseRecommendation (unlines (line0 :: rest')).
Proof.
  intros Hlf Hne Hperm Huniq.
  assert (Hlf' : List.Forall (fun l => no_line_feed l = true) (line0 :: rest')).
  { inversion Hlf; subst. constructor; [assumption|].
    rewrite List.Forall_forall in *. intros l Hl.
    apply H2. apply (Permutation_in _ (Permutation_sym Hperm)). exact Hl. }
  rewrite !parseRecommendation_record_of_lines, !non_empty_lines_unlines by assumption.
  cbn [List.filter].
  destruct (eqb (trim line0) []) eqn:E; [apply eqb_nil in E; contradiction|].
  cbn [negb].
  set (keep := fun l : jsstring => negb (eqb (trim l) [])).
  pose proof (filter_permutation keep _ _ Hperm) as HpermF.
  assert (Hfind : forall label, In label labels ->
            CardApp.find_label label (line0 :: List.filter keep rest)
            = CardApp.find_label label (line0 :: List.filter keep rest')).
  { intros label Hlabel. unfold CardApp.find_label. cbn [List.find].
    destruct (startsWith label (trim line0)); [reflexivity|].
    apply find_unique_permutation; [exact HpermF|].
    intros x y Hx Hy Hcx Hcy. apply filter_In in Hx as [Hx _], Hy as [Hy _].
    now apply (Huniq label). }
  unfold record_of_lines. cbn [length nth_error].
  rewrite (Permutation_length HpermF).
  destruct (_ <? 2)%nat; [reflexivity|].
  unfold CardApp.labelled.
  rewrite !Hfind by (unfold labels; simpl; auto 10). reflexivity.
Qed.

Lemma labelled_lines_can_be_reordered_witness :
  CardApp.parseRecommendation
    (unlines [js "- Jazz Night"; js "Date: Friday"; js "Price: $5"])
  = CardApp.parseRecommendation
    (unlines [js "- Jazz Night"; js "Price: $5"; js "Date: Friday"]).
Proof.
  refine (labelled_lines_can_be_reordered (js "- Jazz Night")
            [js "Date: Friday"; js "Price: $5"] [js "Price: $5"; js "Date: Friday"]
            _ _ (perm_swap _ _ _) _).
  - repeat constructor.
  - discriminate.
  - intros label x y Hlabel Hx Hy Hcx Hcy.
    destruct Hx as [<-|[<-|[]]], Hy as [<-|[<-|[]]]; try reflexivity;
      destruct Hlabel as [<-|[<-|[<-|[<-|[<-|[]]]]]]; discriminate.
Defined.

(** X6: a line that carries none of the five labels, anywhere after the
    first line of a block that is accepted without it, changes nothing. *)
Theorem unlabelled_line_is_ignored a x b :
  no_line_feed x = true ->
  (forall label, In label labels -> carries label x = false) ->
  CardApp.non_empty_lines a <> [] ->
  (2 <= length (CardApp.non_empty_lines (a ++ 10%N :: b)))%nat ->
  CardApp.parseRecommendation (a ++ 10 :: x ++ 10 :: b)
    = CardApp.parseRecommendation (a ++ 10 :: b).
Proof.
  intros Hx Hnone Ha Hlen. rewrite !parseRecommendation_record_of_lines.
  rewrite !non_empty_lines_app in *. rewrite (non_empty_lines_line x Hx).
  destruct (eqb (trim x) []); [reflexivity|].
  destruct (CardApp.non_empty_lines a) as [|line0 A]; [contradiction|].
  set (B := CardApp.non_empty_lines b) in *.
  unfold record_of_lines. rewrite !length_app in *. cbn [length nth_error app] in *.
  replace (_ <? 2)%nat with false by (symmetry; apply Nat.ltb_ge; lia).
  replace (_ <? 2)%nat with false by (symmetry; apply Nat.ltb_ge; lia).
  unfold CardApp.labelled.
  change (line0 :: A ++ x :: B) with ((line0 :: A) ++ x :: B).
  change (line0 :: A ++ B) with ((line0 :: A) ++ B).
  rewrite !find_label_skip by (apply Hnone; unfold labels; simpl; auto 10).
  reflexivity.
Qed.

Lemma unlabelled_line_is_ignored_witness :
  CardApp.parseRecommendation
    (js "- Jazz Night" ++ 10 :: js "Doors open at 7" ++ 10 :: js "Date: Friday")
  = CardApp.parseRecommendation (js "- Jazz Night" ++ 10 :: js "Date: Friday").
Proof.
  refine (unlabelled_line_is_ignored (js "- Jazz Night") (js "Doors open at 7")
            (js "Date: Friday") eq_refl _ _ _).
  - intros label Hlabel.
    destruct Hlabel as [<-|[<-|[<-|[<-|[<-|[]]]]]]; reflexivity.
  - discriminate.
  - apply le_n.
Defined.

(** ** Further properties of the submit handler of the card variant *)

Ltac run_card_handler :=
  unfold CardApp.handleSubmit, Eff.try_finally, Eff.try_catch, Eff.bind, Eff.lift,
    Eff.get, CardApp.setLoading, CardApp.setError, CardApp.setRecommendations,
    Eff.modify, CardApp.request_body in *;
  cbn -[get_field js] in *.

(** X7: when the [recommendations] of the response are an array, its
    items become the results as they are, with no error message and the
    loading state cleared. *)
Theorem array_recommendations_are_shown post st data items :
  post (CardApp.request_body st) = Normal data ->
  get_field data (js "recommendations") = Normal (JArray items) ->
  CardApp.handleSubmit post st =
  (Normal tt,
   {| CardApp.zipCode := CardApp.zipCode st;
      CardApp.interests := CardApp.interests st;
      CardApp.recommendations := items;
      CardApp.loading := false;
      CardApp.error := [];
      CardApp.userLocation := CardApp.userLocation st |}).
Proof.
  intros Hpost Hfield. run_card_handler. rewrite Hpost.
  cbn -[get_field js]. now rewrite Hfield.
Qed.

Lemma array_recommendations_are_shown_witness :
  CardApp.handleSubmit
    (fun _ => Normal (JObject [(js "recommendations", JArray [JString (js "Jazz Night")])]))
    {| CardApp.zipCode := js "94110"; CardApp.interests := js "music, art";
       CardApp.recommendations := [JNull]; CardApp.loading := false;
       CardApp.error := js "old"; CardApp.userLocation := [] |} =
  (Normal tt,
   {| CardApp.zipCode := js "94110"; CardApp.interests := js "music, art";
      CardApp.recommendations := [JString (js "Jazz Night")]; CardApp.loading := false;
      CardApp.error := []; CardApp.userLocation := [] |}).
Proof.
  exact (array_recommendations_are_shown
           (fun _ => Normal (JObject [(js "recommendations",
                                       JArray [JString (js "Jazz Night")])]))
           {| CardApp.zipCode := js "94110"; CardApp.interests := js "music, art";
              CardApp.recommendations := [JNull]; CardApp.loading := false;
              CardApp.error := js "old"; CardApp.userLocation := [] |}
           (JObject [(js "recommendations", JArray [JString (js "Jazz Night")])])
           [JString (js "Jazz Night")] eq_refl eq_refl).
Defined.

(** X8: when the request is rejected, or answers with a body that has no
    properties to read ([null]), the handler reports that the fetch failed
    and leaves no results. *)
Theorem failed_request_is_reported post st :
  (forall data, post (CardApp.request_body st) = Normal data ->
                exists e, get_field data (js "recommendations") = Throw e) ->
  CardApp.handleSubmit post st =
  (Normal tt,
   {| CardApp.zipCode := CardApp.zipCode st;
      CardApp.interests := CardApp.interests st;
      CardApp.recommendations := [];
      CardApp.loading := false;
      CardApp.error := js "Failed to fetch recommendations. Please try again.";
      CardApp.userLocation := CardApp.userLocation st |}).
Proof.
  intros Hfail. run_card_handler.
  destruct (post _) as [data|e]; cbn -[get_field js]; [|reflexivity].
  destruct (Hfail data eq_refl) as (e & He). now rewrite He.
Qed.

Lemma failed_request_is_reported_witness :
  CardApp.handleSubmit (fun _ => Throw (Error (js "Network Error")))
    {| CardApp.zipCode := js "94110"; CardApp.interests := js "music";
       CardApp.recommendations := [JNull]; CardApp.loading := false;
       CardApp.error := []; CardApp.userLocation := [] |} =
  (Normal tt,
   {| CardApp.zipCode := js "94110"; CardApp.interests := js "music";
      CardApp.recommendations := []; CardApp.loading := false;
      CardApp.error := js "Failed to fetch recommendations. Please try again.";
      CardApp.userLocation := [] |}).
Proof.
  refine (failed_request_is_reported (fun _ => Throw (Error (js "Network Error")))
            {| CardApp.zipCode := js "94110"; CardApp.interests := js "music";
               CardApp.recommendations := [JNull]; CardApp.loading := false;
               CardApp.error := []; CardApp.userLocation := [] |} _).
  intros data Hdata. discriminate Hdata.
Defined.

(** X9: whatever the request does, the handler leaves the form fields as
    they were and never leaves an error message together with results: the
    message is empty or the list is. *)
Theorem error_excludes_results post st :
  CardApp.zipCode (snd (CardApp.handleSubmit post st)) = CardApp.zipCode st /\
  CardApp.interests (snd (CardApp.handleSubmit post st)) = CardApp.interests st /\
  CardApp.userLocation (snd (CardApp.handleSubmit post st)) = CardApp.userLocation st /\
  (CardApp.error (snd (CardApp.handleSubmit post st)) = [] \/
   CardApp.recommendations (snd (CardApp.handleSubmit post st)) = []).
Proof.
  run_card_handler.
  destruct (post _) as [data|e]; cbn -[get_field js]; [|auto].
  destruct (get_field data _) as [recs|e]; cbn -[get_field js]; [|auto].
  destruct recs; cbn; auto.
Qed.

(** X10: every submit starts from a clean state: the results, the error
    message and the loading flag that were there before have no part in
    what the handler leaves. *)
Theorem submit_forgets_earlier_results post st1 st2 :
  CardApp.zipCode st1 = CardApp.zipCode st2 ->
  CardApp.interests st1 = CardApp.interests st2 ->
  CardApp.userLocation st1 = CardApp.userLocation st2 ->
  CardApp.handleSubmit post st1 = CardApp.handleSubmit post st2.
Proof.
  intros Hzip Hint Hloc. run_card_handler. now rewrite Hzip, Hint, Hloc.
Qed.

Lemma submit_forgets_earlier_results_witness :
  CardApp.handleSubmit (fun _ => Normal (JObject []))
    {| CardApp.zipCode := js "94110"; CardApp.interests := js "music";
       CardApp.recommendations := [JNull]; CardApp.loading := true;
       CardApp.error := js "old"; CardApp.userLocation := [] |} =
  CardApp.handleSubmit (fun _ => Normal (JObject []))
    {| CardApp.zipCode := js "94110"; CardApp.interests := js "music";
       CardApp.recommendations := []; CardApp.loading := false;
       CardApp.error := []; CardApp.userLocation := [] |}.
Proof.
  exact (submit_forgets_earlier_results (fun _ => Normal (JObject []))
           {| CardApp.zipCode := js "94110"; CardApp.interests := js "music";
              CardApp.recommendations := [JNull]; CardApp.loading := true;
              CardApp.error := js "old"; CardApp.userLocation := [] |}
           {| CardApp.zipCode := js "94110"; CardApp.interests := js "music";
              CardApp.recommendations := []; CardApp.loading := false;
              CardApp.error := []; CardApp.userLocation := [] |}
           eq_refl eq_refl eq_refl).
Defined.

(** X11: the request always names at least one interest: the input split
    on commas gives one entry more than it has commas, each trimmed, so that
    an empty input is sent as one empty interest; the zip code is sent as
    typed. *)
Theorem request_names_an_interest st :
  CardApp.zip_code (CardApp.request_body st) = CardApp.zipCode st /\
  length (CardApp.body_interests (CardApp.request_body st))
    = S (occurrences 44 (CardApp.interests st)) /\
  List.Forall (fun i => trim i = i) (CardApp.body_interests (CardApp.request_body st)) /\
  (CardApp.interests st = [] ->
   CardApp.body_interests (CardApp.request_body st) = [[]]).
Proof.
  unfold CardApp.request_body. cbn [CardApp.zip_code CardApp.body_interests].
  repeat split.
  - now rewrite length_map, split_length.
  - apply List.Forall_forall. intros i Hi.
    apply in_map_iff in Hi as (piece & <- & _). apply trim_idem.
  - intros ->. reflexivity.
Qed.

(** ** Further properties of the submit handler of [App.tsx] *)

Ltac run_frontend_handler :=
  unfold FrontendApp.handleSubmit, Eff.try_finally, Eff.try_catch, Eff.bind,
    Eff.lift, Eff.get, Eff.ret, FrontendApp.setLoading, FrontendApp.setError,
    FrontendApp.setEvents, Eff.modify in *;
  cbn -[get_field length_is_zero js eqb trim FrontendApp.getRecommendations] in *.

(** X12: with a zip code that is blank once trimmed no request is sent:
    whatever the network would answer, the handler asks for the zip code and
    leaves the preferences and the events as they were. *)
Theorem blank_zip_sends_no_request post st :
  trim (FrontendApp.zip_code (FrontendApp.preferences st)) = [] ->
  FrontendApp.handleSubmit post st =
  (Normal tt,
   {| FrontendApp.preferences := FrontendApp.preferences st;
      FrontendApp.events := FrontendApp.events st;
      FrontendApp.loading := false;
      FrontendApp.error := Some (js "Please enter your zip code");
      FrontendApp.interestsInput := FrontendApp.interestsInput st |}).
Proof.
  intros Hzip. run_frontend_handler. now rewrite Hzip.
Qed.

Lemma blank_zip_sends_no_request_witness :
  FrontendApp.handleSubmit (fun _ => FrontendApp.Fulfilled JNull)
    {| FrontendApp.preferences :=
         {| FrontendApp.zip_code := js "  "; FrontendApp.interests := [js "music"] |};
       FrontendApp.events := JArray [JNull]; FrontendApp.loading := false;
       FrontendApp.error := None; FrontendApp.interestsInput := [] |} =
  (Normal tt,
   {| FrontendApp.preferences :=
        {| FrontendApp.zip_code := js "  "; FrontendApp.interests := [js "music"] |};
      FrontendApp.events := JArray [JNull]; FrontendApp.loading := false;
      FrontendApp.error := Some (js "Please enter your zip code");
      FrontendApp.interestsInput := [] |}).
Proof.
  exact (blank_zip_sends_no_request (fun _ => FrontendApp.Fulfilled JNull)
           {| FrontendApp.preferences :=
                {| FrontendApp.zip_code := js "  ";
                   FrontendApp.interests := [js "music"] |};
              FrontendApp.events := JArray [JNull]; FrontendApp.loading := false;
              FrontendApp.error := None; FrontendApp.interestsInput := [] |}
           eq_refl).
Defined.

Lemma eqb_non_empty s : s <> [] -> eqb s [] = false.
Proof. destruct s; [contradiction|reflexivity]. Qed.

(** X13: an answer with no recommendation is no failure: the events become
    the empty list and the message says that no events were found. *)
Theorem no_events_message post st data :
  trim (FrontendApp.zip_code (FrontendApp.preferences st)) <> [] ->
  post (FrontendApp.preferences st) = FrontendApp.Fulfilled data ->
  get_field data (js "recommendations") = Normal (JArray []) ->
  FrontendApp.handleSubmit post st =
  (Normal tt,
   {| FrontendApp.preferences := FrontendApp.preferences st;
      FrontendApp.events := JArray [];
      FrontendApp.loading := false;
      FrontendApp.error :=
        Some (js "No events found in your area. Try adjusting your zip code.");
      FrontendApp.interestsInput := FrontendApp.interestsInput st |}).
Proof.
  intros Hzip Hpost Hfield. run_frontend_handler.
  rewrite (eqb_non_empty _ Hzip). unfold FrontendApp.getRecommendations.
  rewrite Hpost. cbn -[get_field length_is_zero js]. now rewrite Hfield.
Qed.

Lemma no_events_message_witness :
  FrontendApp.handleSubmit
    (fun _ => FrontendApp.Fulfilled (JObject [(js "recommendations", JArray [])]))
    {| FrontendApp.preferences :=
         {| FrontendApp.zip_code := js "94110"; FrontendApp.interests := [js "music"] |};
       FrontendApp.events := JArray [JNull]; FrontendApp.loading := false;
       FrontendApp.error := None; FrontendApp.interestsInput := [] |} =
  (Normal tt,
   {| FrontendApp.preferences :=
        {| FrontendApp.zip_code := js "94110"; FrontendApp.interests := [js "music"] |};
      FrontendApp.events := JArray []; FrontendApp.loading := false;
      FrontendApp.error :=
        Some (js "No events found in your area. Try adjusting your zip code.");
      FrontendApp.interestsInput := [] |}).
Proof.
  refine (no_events_message
            (fun _ => FrontendApp.Fulfilled (JObject [(js "recommendations", JArray [])]))
            {| FrontendApp.preferences :=
                 {| FrontendApp.zip_code := js "94110";
                    FrontendApp.interests := [js "music"] |};
               FrontendApp.events := JArray [JNull]; FrontendApp.loading := false;
               FrontendApp.error := None; FrontendApp.interestsInput := [] |}
            (JObject [(js "recommendations", JArray [])]) _ eq_refl eq_refl).
  discriminate.
Defined.

(** X14: whatever the response holds as [recommendations] becomes the
    events, array or not, and no error is reported, as long as it has a
    [length] that is not 0 or no [length] at all. *)
Theorem recommendations_stored_unchecked post st data recs :
  trim (FrontendApp.zip_code (FrontendApp.preferences st)) <> [] ->
  post (FrontendApp.preferences st) = FrontendApp.Fulfilled data ->
  get_field data (js "recommendations") = Normal recs ->
  length_is_zero recs = Normal false ->
  FrontendApp.handleSubmit post st =
  (Normal tt,
   {| FrontendApp.preferences := FrontendApp.preferences st;
      FrontendApp.events := recs;
      FrontendApp.loading := false;
      FrontendApp.error := None;
      FrontendApp.interestsInput := FrontendApp.interestsInput st |}).
Proof.
  intros Hzip Hpost Hfield Hlen. run_frontend_handler.
  rewrite (eqb_non_empty _ Hzip). unfold FrontendApp.getRecommendations.
  rewrite Hpost. cbn -[get_field length_is_zero js]. rewrite Hfield.
  cbn -[get_field length_is_zero js]. now rewrite Hlen.
Qed.

Lemma recommendations_stored_unchecked_witness :
  FrontendApp.handleSubmit
    (fun _ => FrontendApp.Fulfilled
                (JObject [(js "recommendations", JString (js "not an array"))]))
    {| FrontendApp.preferences :=
         {| FrontendApp.zip_code := js "94110"; FrontendApp.interests := [js "music"] |};
       FrontendApp.events := JArray []; FrontendApp.loading := false;
       FrontendApp.error := None; FrontendApp.interestsInput := [] |} =
  (Normal tt,
   {| FrontendApp.preferences :=
        {| FrontendApp.zip_code := js "94110"; FrontendApp.interests := [js "music"] |};
      FrontendApp.events := JString (js "not an array"); FrontendApp.loading := false;
      FrontendApp.error := None; FrontendApp.interestsInput := [] |}).
Proof.
  refine (recommendations_stored_unchecked
            (fun _ => FrontendApp.Fulfilled
                        (JObject [(js "recommendations", JString (js "not an array"))]))
            {| FrontendApp.preferences :=
                 {| FrontendApp.zip_code := js "94110";
                    FrontendApp.interests := [js "music"] |};
               FrontendApp.events := JArray []; FrontendApp.loading := false;
               FrontendApp.error := None; FrontendApp.interestsInput := [] |}
            (JObject [(js "recommendations", JString (js "not an array"))])
            (JString (js "not an array")) _ eq_refl eq_refl eq_refl).
  discriminate.
Defined.

(** X15: a rejected request keeps the events that were shown before and
    reports the message of the server when the answer carries one that is
    not empty, the message of axios otherwise, after the words
    [Failed to get recommendations: ]. *)
Theorem rejected_request_keeps_events post st response_message message :
  trim (FrontendApp.zip_code (FrontendApp.preferences st)) <> [] ->
  post (FrontendApp.preferences st)
    = FrontendApp.AxiosRejected response_message message ->
  FrontendApp.handleSubmit post st =
  (Normal tt,
   {| FrontendApp.preferences := FrontendApp.preferences st;
      FrontendApp.events := FrontendApp.events st;
      FrontendApp.loading := false;
      FrontendApp.error :=
        Some (js "Failed to get recommendations: "
              ++ match response_message with
                 | Some (c :: s) => c :: s
                 | _ => message
                 end);
      FrontendApp.interestsInput := FrontendApp.interestsInput st |}).
Proof.
  intros Hzip Hpost. run_frontend_handler.
  rewrite (eqb_non_empty _ Hzip). unfold FrontendApp.getRecommendations.
  rewrite Hpost. cbn -[js]. now destruct response_message as [[|c s]|].
Qed.

Lemma rejected_request_keeps_events_witness :
  FrontendApp.handleSubmit
    (fun _ => FrontendApp.AxiosRejected (Some []) (js "Network Error"))
    {| FrontendApp.preferences :=
         {| FrontendApp.zip_code := js "94110"; FrontendApp.interests := [js "music"] |};
       FrontendApp.events := JArray [JNull]; FrontendApp.loading := false;
       FrontendApp.error := None; FrontendApp.interestsInput := [] |} =
  (Normal tt,
   {| FrontendApp.preferences :=
        {| FrontendApp.zip_code := js "94110"; FrontendApp.interests := [js "music"] |};
      FrontendApp.events := JArray [JNull]; FrontendApp.loading := false;
      FrontendApp.error := Some (js "Failed to get recommendations: Network Error");
      FrontendApp.interestsInput := [] |}).
Proof.
  refine (rejected_request_keeps_events
            (fun _ => FrontendApp.AxiosRejected (Some []) (js "Network Error"))
            {| FrontendApp.preferences :=
                 {| FrontendApp.zip_code := js "94110";
                    FrontendApp.interests := [js "music"] |};
               FrontendApp.events := JArray [JNull]; FrontendApp.loading := false;
               FrontendApp.error := None; FrontendApp.interestsInput := [] |}
            (Some []) (js "Network Error") _ eq_refl).
  discriminate.
Defined.

(** X27: a response without a [recommendations] field still replaces the
    events: [setEvents] runs with [undefined] before the read of its [length]
    throws, and the text of that [TypeError] is what the user sees. *)
Theorem missing_recommendations_replace_events post st data :
  trim (FrontendApp.zip_code (FrontendApp.preferences st)) <> [] ->
  post (FrontendApp.preferences st) = FrontendApp.Fulfilled data ->
  get_field data (js "recommendations") = Normal JUndefined ->
  FrontendApp.handleSubmit post st =
  (Normal tt,
   {| FrontendApp.preferences := FrontendApp.preferences st;
      FrontendApp.events := JUndefined;
      FrontendApp.loading := false;
      FrontendApp.error :=
        Some (js "Cannot read properties of undefined (reading 'length')");
      FrontendApp.interestsInput := FrontendApp.interestsInput st |}).
Proof.
  intros Hzip Hpost Hfield. run_frontend_handler.
  rewrite (eqb_non_empty _ Hzip). unfold FrontendApp.getRecommendations.
  rewrite Hpost. cbn -[get_field length_is_zero js]. now rewrite Hfield.
Qed.

Lemma missing_recommendations_replace_events_witness :
  FrontendApp.handleSubmit
    (fun _ => FrontendApp.Fulfilled (JObject [(js "error", JString (js "busy"))]))
    {| FrontendApp.preferences :=
         {| FrontendApp.zip_code := js "94110"; FrontendApp.interests := [js "music"] |};
       FrontendApp.events := JArray [JNull]; FrontendApp.loading := false;
       FrontendApp.error := None; FrontendApp.interestsInput := [] |} =
  (Normal tt,
   {| FrontendApp.preferences :=
        {| FrontendApp.zip_code := js "94110"; FrontendApp.interests := [js "music"] |};
      FrontendApp.events := JUndefined; FrontendApp.loading := false;
      FrontendApp.error :=
        Some (js "Cannot read properties of undefined (reading 'length')");
      FrontendApp.interestsInput := [] |}).
Proof.
  refine (missing_recommendations_replace_events
            (fun _ => FrontendApp.Fulfilled (JObject [(js "error", JString (js "busy"))]))
            {| FrontendApp.preferences :=
                 {| FrontendApp.zip_code := js "94110";
                    FrontendApp.interests := [js "music"] |};
               FrontendApp.events := JArray [JNull]; FrontendApp.loading := false;
               FrontendApp.error := None; FrontendApp.interestsInput := [] |}
            (JObject [(js "error", JString (js "busy"))]) _ eq_refl eq_refl).
  discriminate.
Defined.

Lemma getRecommendations_throws_errors post request e :
  FrontendApp.getRecommendations post request = Throw e ->
  exists message, e = Error message /\
    message <> js "Failed to fetch recommendations. Please try again.".
Proof.
  unfold FrontendApp.getRecommendations.
  destruct (post request) as [data|response_message message|]; try discriminate.
  - intros H. injection H as <-. eexists. split; [reflexivity|].
    cbn. discriminate.
  - intros H. injection H as <-. eexists. split; [reflexivity|]. discriminate.
Qed.

Lemma get_field_throws_errors v key e :
  get_field v key = Throw e ->
  exists message, e = Error message /\
    message <> js "Failed to fetch recommendations. Please try again.".
Proof.
  destruct v; try discriminate; intros H; injection H as <-;
    (eexists; split; [reflexivity|]); cbn; discriminate.
Qed.

Lemma length_is_zero_throws_errors v e :
  length_is_zero v = Throw e ->
  exists message, e = Error message /\
    message <> js "Failed to fetch recommendations. Please try again.".
Proof.
  destruct v; try discriminate; intros H; injection H as <-;
    (eexists; split; [reflexivity|]); cbn; discriminate.
Qed.

(** X16: the handler never shows its own fallback message: everything
    thrown on the way is an [Error] with a message of its own, which is what
    the user sees. *)
Theorem fallback_message_is_never_shown post st :
  FrontendApp.error (snd (FrontendApp.handleSubmit post st))
    <> Some (js "Failed to fetch recommendations. Please try again.").
Proof.
  run_frontend_handler.
  destruct (eqb _ []); cbn -[get_field length_is_zero js FrontendApp.getRecommendations];
    [discriminate|].
  destruct (FrontendApp.getRecommendations _ _) as [response|e] eqn:Hget;
    cbn -[get_field length_is_zero js].
  2:{ destruct (getRecommendations_throws_errors _ _ _ Hget) as (m & -> & Hm).
      cbn -[js]. congruence. }
  destruct (get_field response _) as [recs|e] eqn:Hfield;
    cbn -[get_field length_is_zero js].
  2:{ destruct (get_field_throws_errors _ _ _ Hfield) as (m & -> & Hm).
      cbn -[js]. congruence. }
  destruct (length_is_zero recs) as [[|]|e] eqn:Hlen; cbn -[js]; try discriminate.
  destruct (length_is_zero_throws_errors _ _ Hlen) as (m & -> & Hm).
  cbn -[js]. congruence.
Qed.

(** ** The list of interests of [App.tsx] *)

Section InterestFacts.

Import FrontendApp.
Local Open Scope Z_scope.

Lemma filter_indexed_all {A} (index i : Z) (l : list A) :
  index < i \/ i + Z.of_nat (length l) <= index ->
  filter_indexed (fun _ j => negb (j =? index)) i l = l.
Proof.
  revert i. induction l as [|x l IH]; intros i Hout; [reflexivity|].
  cbn [filter_indexed]. cbn [length] in Hout.
  destruct (Z.eqb_spec i index) as [->|_]; [lia|]. cbn [negb].
  f_equal. apply IH. lia.
Qed.

Lemma filter_indexed_one {A} (k : nat) : forall (i : Z) (l : list A),
  (k < length l)%nat ->
  filter_indexed (fun _ j => negb (j =? i + Z.of_nat k)) i l
    = firstn k l ++ skipn (S k) l.
Proof.
  induction k as [|k IH]; intros i [|x l] Hk; cbn [length] in Hk; try lia.
  - cbn [filter_indexed firstn skipn app].
    replace (i + Z.of_nat 0) with i by lia. rewrite Z.eqb_refl. cbn [negb].
    apply filter_indexed_all. lia.
  - cbn [filter_indexed firstn skipn app].
    destruct (Z.eqb_spec i (i + Z.of_nat (S k))) as [E|_]; [lia|]. cbn [negb].
    f_equal. replace (i + Z.of_nat (S k)) with (i + 1 + Z.of_nat k) by lia.
    apply IH. lia.
Qed.

(** Where [indexOf] finds a string that the list holds. *)
Lemma indexOf_from_found x : forall l i,
  In x l ->
  exists k, indexOf_from x i l = i + Z.of_nat k /\
            nth_error l k = Some x /\ ~ In x (firstn k l).
Proof.
  induction l as [|y l IH]; intros i Hin; [contradiction|].
  cbn [indexOf_from]. destruct (eqb y x) eqn:E.
  - apply eqb_eq in E. subst y. exists 0%nat. repeat split; [lia|]. intros [].
  - assert (Hyx : y <> x) by (intros ->; rewrite (proj2 (eqb_eq x x) eq_refl) in E;
                              discriminate).
    destruct Hin as [->|Hin]; [contradiction|].
    destruct (IH (i + 1) Hin) as (k & Hk & Hnth & Hnot).
    exists (S k). repeat split; [lia|exact Hnth|].
    cbn [firstn]. intros [Hx|Hx]; [contradiction|now apply Hnot].
Qed.

Lemma first_occurrence_unique (x : jsstring) l k i :
  List.NoDup l -> nth_error l k = Some x -> nth_error l i = Some x -> k = i.
Proof.
  intros Hnd Hk Hi.
  apply (proj1 (List.NoDup_nth_error l) Hnd); [|congruence].
  apply nth_error_Some. congruence.
Qed.

End InterestFacts.

(** X17: [handleRemoveInterest] takes out the interest at the given
    position and keeps the others in their order; an index outside the
    list, [-1] included, changes nothing; the zip code is never touched. *)
Theorem remove_interest_at_position index st :
  let l := FrontendApp.interests (FrontendApp.preferences st) in
  let st' := snd (FrontendApp.handleRemoveInterest index st) in
  FrontendApp.zip_code (FrontendApp.preferences st')
    = FrontendApp.zip_code (FrontendApp.preferences st) /\
  ((0 <= index < Z.of_nat (length l))%Z ->
   FrontendApp.interests (FrontendApp.preferences st')
     = firstn (Z.to_nat index) l ++ skipn (S (Z.to_nat index)) l) /\
  ((index < 0 \/ Z.of_nat (length l) <= index)%Z ->
   FrontendApp.interests (FrontendApp.preferences st') = l).
Proof.
  cbn. repeat split.
  - intros Hin.
    pose proof (filter_indexed_one (Z.to_nat index) 0
                  (FrontendApp.interests (FrontendApp.preferences st))
                  ltac:(lia)) as Hone.
    replace (0 + Z.of_nat (Z.to_nat index))%Z with index in Hone by lia.
    exact Hone.
  - intros Hout. apply filter_indexed_all. lia.
Qed.

(** X18: the button of a chip removes the first interest equal to the one
    the chip shows: with the same interest added twice, the button of the
    second chip takes out the first.  Without duplicates it takes out its
    own. *)
Theorem chip_button_removes_first_occurrence st i x :
  nth_error (FrontendApp.interests (FrontendApp.preferences st)) i = Some x ->
  let l := FrontendApp.interests (FrontendApp.preferences st) in
  let st' := snd (FrontendApp.click_remove x st) in
  exists k,
    (k <= i)%nat /\ nth_error l k = Some x /\ ~ In x (firstn k l) /\
    FrontendApp.interests (FrontendApp.preferences st') = firstn k l ++ skipn (S k) l /\
    (List.NoDup l -> k = i).
Proof.
  intros Hi. cbn zeta.
  set (l := FrontendApp.interests (FrontendApp.preferences st)) in *.
  destruct (indexOf_from_found x l 0 (nth_error_In _ _ Hi)) as (k & Hk & Hnth & Hnot).
  exists k.
  assert (Hlt : (k < length l)%nat) by (apply nth_error_Some; congruence).
  repeat split; try assumption.
  - destruct (Nat.le_gt_cases k i) as [Hle|Hgt]; [assumption|].
    exfalso. apply Hnot. rewrite <- (firstn_skipn k l) in Hi.
    rewrite nth_error_app1 in Hi by (rewrite length_firstn; lia).
    now apply nth_error_In in Hi.
  - unfold FrontendApp.click_remove, Eff.bind, Eff.get.
    fold l. unfold FrontendApp.indexOf. rewrite Hk.
    cbn. fold l. apply filter_indexed_one. exact Hlt.
  - intros Hnd. now apply (first_occurrence_unique x l).
Qed.

Lemma chip_button_removes_first_occurrence_witness :
  exists k,
    (k <= 2)%nat /\
    nth_error [js "music"; js "art"; js "music"] k = Some (js "music") /\
    ~ In (js "music") (firstn k [js "music"; js "art"; js "music"]) /\
    [js "art"; js "music"]
      = firstn k [js "music"; js "art"; js "music"]
        ++ skipn (S k) [js "music"; js "art"; js "music"] /\
    (List.NoDup [js "music"; js "art"; js "music"] -> k = 2%nat).
Proof.
  exact (chip_button_removes_first_occurrence
           {| FrontendApp.preferences :=
                {| FrontendApp.zip_code := js "94110";
                   FrontendApp.interests := [js "music"; js "art"; js "music"] |};
              FrontendApp.events := JArray []; FrontendApp.loading := false;
              FrontendApp.error := None; FrontendApp.interestsInput := [] |}
           2%nat (js "music") eq_refl).
Defined.

(** X19: [handleAddInterest] ignores an input that is blank; any other
    input is added, trimmed, at the end of the list and the input field
    is emptied; removing the last position then gives back the preferences
    from before. *)
Theorem add_interest_and_undo st :
  let l := FrontendApp.interests (FrontendApp.preferences st) in
  let added := snd (FrontendApp.handleAddInterest st) in
  (trim (FrontendApp.interestsInput st) = [] -> added = st) /\
  (trim (FrontendApp.interestsInput st) <> [] ->
   FrontendApp.interests (FrontendApp.preferences added)
     = l ++ [trim (FrontendApp.interestsInput st)] /\
   FrontendApp.interestsInput added = [] /\
   FrontendApp.preferences
     (snd (FrontendApp.handleRemoveInterest (Z.of_nat (length l)) added))
     = FrontendApp.preferences st).
Proof.
  cbn zeta. unfold FrontendApp.handleAddInterest, Eff.bind, Eff.get, Eff.ret.
  split.
  - intros ->. reflexivity.
  - intros Hinput. rewrite (eqb_non_empty _ Hinput).
    cbn -[trim]. repeat split.
    destruct st as [[zip l] ev ld er input]. cbn -[trim] in *. f_equal.
    pose proof (filter_indexed_one (length l) 0 (l ++ [trim input])
                  ltac:(rewrite length_app; simpl; lia)) as Hone.
    replace (0 + Z.of_nat (length l))%Z with (Z.of_nat (length l)) in Hone by lia.
    rewrite Hone.
    rewrite firstn_app, Nat.sub_diag, firstn_all. cbn [firstn].
    rewrite skipn_all2 by (rewrite length_app; simpl; lia).
    now rewrite !app_nil_r.
Qed.

(** X20: adding and removing keep the list in shape: when no interest is
    empty and none starts or ends with white space, the same holds after an
    interest is added and after one is removed, at whatever index. *)
Theorem interests_stay_trimmed st index :
  List.Forall (fun i => i <> [] /\ trim i = i)
              (FrontendApp.interests (FrontendApp.preferences st)) ->
  List.Forall (fun i => i <> [] /\ trim i = i)
    (FrontendApp.interests
       (FrontendApp.preferences (snd (FrontendApp.handleAddInterest st)))) /\
  List.Forall (fun i => i <> [] /\ trim i = i)
    (FrontendApp.interests
       (FrontendApp.preferences (snd (FrontendApp.handleRemoveInterest index st)))).
Proof.
  intros Hall. split.
  - unfold FrontendApp.handleAddInterest, Eff.bind, Eff.get, Eff.ret.
    destruct (eqb (trim (FrontendApp.interestsInput st)) []) eqn:E; [exact Hall|].
    cbn -[trim]. apply Forall_app. split; [exact Hall|].
    constructor; [|constructor]. split; [|apply trim_idem].
    intros Hnil. rewrite Hnil in E. discriminate.
  - cbn. generalize 0%Z.
    induction Hall as [|x l Hx _ IH]; intros i; cbn [FrontendApp.filter_indexed];
      [constructor|].
    destruct (negb _); [constructor; [exact Hx|]|]; apply IH.
Qed.

Lemma interests_stay_trimmed_witness :
  List.Forall (fun i => i <> [] /\ trim i = i) [js "music"; js "art"] /\
  List.Forall (fun i => i <> [] /\ trim i = i) [js "music"].
Proof.
  refine (interests_stay_trimmed
            {| FrontendApp.preferences :=
                 {| FrontendApp.zip_code := js "94110";
                    FrontendApp.interests := [js "music"] |};
               FrontendApp.events := JArray []; FrontendApp.loading := false;
               FrontendApp.error := None; FrontendApp.interestsInput := js " art " |}
            5%Z _).
  repeat constructor. discriminate.
Defined.

(** ** The saved preferences of [App.tsx] *)

Section StorageFacts.

Import FrontendApp.

Lemma getItem_saved_interests p store :
  getItem (js "interests") (save_preferences p store) = Some (Json.stringify (interests p)).
Proof. unfold getItem, save_preferences, setItem. apply lookup_insert_eq. Qed.

Lemma getItem_saved_zip p store :
  getItem (js "zipCode") (save_preferences p store) = Some (zip_code p).
Proof.
  unfold getItem, save_preferences, setItem.
  rewrite lookup_insert_ne by discriminate. apply lookup_insert_eq.
Qed.

Lemma getItem_saved_other key p store :
  key <> js "zipCode" -> key <> js "interests" ->
  getItem key (save_preferences p store) = getItem key store.
Proof.
  intros Hz Hi. unfold getItem, save_preferences, setItem.
  rewrite !lookup_insert_ne by congruence. reflexivity.
Qed.

Lemma save_preferences_twice p q store :
  save_preferences q (save_preferences p store) = save_preferences q store.
Proof.
  apply map_eq. intros key. fold (getItem key (save_preferences q (save_preferences p store))).
  fold (getItem key (save_preferences q store)).
  destruct (decide (key = js "interests")) as [->|Hi];
    [now rewrite !getItem_saved_interests|].
  destruct (decide (key = js "zipCode")) as [->|Hz];
    [now rewrite !getItem_saved_zip|].
  now rewrite !getItem_saved_other.
Qed.

End StorageFacts.

(** X21: saving writes the two entries and nothing else, and the last
    save wins: the zip code is stored as it is, the interests as their JSON
    text, every other key keeps its value, and saving twice leaves what the
    second save alone would leave. *)
Theorem save_overwrites_two_entries p q store :
  FrontendApp.getItem (js "zipCode") (FrontendApp.save_preferences p store)
    = Some (FrontendApp.zip_code p) /\
  FrontendApp.getItem (js "interests") (FrontendApp.save_preferences p store)
    = Some (Json.stringify (FrontendApp.interests p)) /\
  (forall key, key <> js "zipCode" -> key <> js "interests" ->
     FrontendApp.getItem key (FrontendApp.save_preferences p store)
       = FrontendApp.getItem key store) /\
  FrontendApp.save_preferences q (FrontendApp.save_preferences p store)
    = FrontendApp.save_preferences q store.
Proof.
  repeat split.
  - apply getItem_saved_zip.
  - apply getItem_saved_interests.
  - intros key. apply getItem_saved_other.
  - apply save_preferences_twice.
Qed.

(** X22: a zip code that was saved is not put back when the page is
    opened again: the saving effect always writes an entry for the
    interests, and once that entry is there the loading effect keeps the zip
    code of the first render; mounting then overwrites the saved zip code
    with it.  The interests come back. *)
Theorem saved_zip_code_is_not_restored p store st :
  exists st' store',
    FrontendApp.mount (FrontendApp.save_preferences p store) st = (Normal store', st') /\
    FrontendApp.zip_code (FrontendApp.preferences st')
      = FrontendApp.zip_code (FrontendApp.preferences st) /\
    FrontendApp.interests (FrontendApp.preferences st') = FrontendApp.interests p /\
    FrontendApp.getItem (js "zipCode") store'
      = Some (FrontendApp.zip_code (FrontendApp.preferences st)) /\
    FrontendApp.getItem (js "interests") store'
      = Some (Json.stringify (FrontendApp.interests p)).
Proof.
  unfold FrontendApp.mount, FrontendApp.load_preferences.
  rewrite getItem_saved_interests, getItem_saved_zip.
  unfold Eff.bind, Eff.get, Eff.ret, Eff.lift, FrontendApp.setPreferences, Eff.modify.
  assert (Ht : FrontendApp.truthy_item (Some (Json.stringify (FrontendApp.interests p)))
               = Some (Json.stringify (FrontendApp.interests p))) by reflexivity.
  rewrite Ht, parse_stringify.
  destruct (FrontendApp.truthy_item (Some (FrontendApp.zip_code p)));
    (eexists; eexists; split; [reflexivity|]);
    cbn [snd FrontendApp.preferences FrontendApp.zip_code FrontendApp.interests];
    rewrite getItem_saved_zip, getItem_saved_interests; auto.
Qed.

(** X23: without an entry for the interests, or with an empty one, the
    loading effect leaves the interests alone and takes the saved zip code
    when there is one that is not empty. *)
Theorem load_without_saved_interests store st :
  FrontendApp.truthy_item (FrontendApp.getItem (js "interests") store) = None ->
  FrontendApp.load_preferences store st =
  (Normal tt,
   {| FrontendApp.preferences :=
        {| FrontendApp.zip_code :=
             match FrontendApp.truthy_item (FrontendApp.getItem (js "zipCode") store) with
             | Some zip => zip
             | None => FrontendApp.zip_code (FrontendApp.preferences st)
             end;
           FrontendApp.interests := FrontendApp.interests (FrontendApp.preferences st) |};
      FrontendApp.events := FrontendApp.events st;
      FrontendApp.loading := FrontendApp.loading st;
      FrontendApp.error := FrontendApp.error st;
      FrontendApp.interestsInput := FrontendApp.interestsInput st |}).
Proof.
  intros Hnone. unfold FrontendApp.load_preferences. cbv zeta. rewrite Hnone.
  unfold Eff.bind, Eff.get, Eff.ret, FrontendApp.setPreferences, Eff.modify.
  destruct (FrontendApp.truthy_item (FrontendApp.getItem (js "zipCode") store));
    destruct st as [[zip l] ev ld er input]; reflexivity.
Qed.

Lemma load_without_saved_interests_witness :
  FrontendApp.load_preferences
    (FrontendApp.setItem (js "zipCode") (js "94110") (empty : gmap jsstring jsstring))
    {| FrontendApp.preferences :=
         {| FrontendApp.zip_code := []; FrontendApp.interests := [] |};
       FrontendApp.events := JArray []; FrontendApp.loading := false;
       FrontendApp.error := None; FrontendApp.interestsInput := [] |} =
  (Normal tt,
   {| FrontendApp.preferences :=
        {| FrontendApp.zip_code := js "94110"; FrontendApp.interests := [] |};
      FrontendApp.events := JArray []; FrontendApp.loading := false;
      FrontendApp.error := None; FrontendApp.interestsInput := [] |}).
Proof.
  exact (load_without_saved_interests
           (FrontendApp.setItem (js "zipCode") (js "94110") (empty : gmap jsstring jsstring))
           {| FrontendApp.preferences :=
                {| FrontendApp.zip_code := []; FrontendApp.interests := [] |};
              FrontendApp.events := JArray []; FrontendApp.loading := false;
              FrontendApp.error := None; FrontendApp.interestsInput := [] |}
           eq_refl).
Defined.

(** ** The popup of the browser extension *)

Section PopupFacts.

Import Popup.

Lemma interests_of_non_empty value : interests_of value <> [].
Proof.
  unfold interests_of. intros H. apply (f_equal (@length jsstring)) in H.
  rewrite length_map, split_length in H. discriminate.
Qed.

Lemma replace_line_feeds_no_line_feed s : no_line_feed (replace_line_feeds s) = true.
Proof.
  unfold replace_line_feeds, no_line_feed. induction s as [|c s IH]; [reflexivity|].
  cbn [flat_map]. rewrite forallb_app, IH, andb_true_r.
  destruct (c =? 10) eqn:E; [reflexivity|]. cbn. now rewrite E.
Qed.

Lemma on_click_request_and_show value locate reverse recommend :
  on_click value locate reverse recommend
    = request_and_show (interests_of value) locate reverse recommend.
Proof.
  unfold on_click. cbv zeta.
  pose proof (interests_of_non_empty value) as Hne.
  destruct (interests_of value); [contradiction|reflexivity].
Qed.

End PopupFacts.

Ltac run_popup :=
  unfold Popup.request_and_show, Eff.try_finally, Eff.try_catch, Eff.bind, Eff.lift,
    Eff.get, Eff.ret, Popup.set_loading_display, Popup.set_results_display,
    Popup.set_results_innerHTML, Popup.alert, Eff.modify;
  cbn -[get_field js Popup.value_replace_line_feeds Popup.error_alert
        Popup.failure_alert].

(** X24: the check for an empty list of interests never stops a click:
    splitting the input on commas always gives at least one entry, so the
    listener goes on to locate the user and send the request, even with an
    empty input. *)
Theorem interest_check_never_fires value locate reverse recommend :
  Popup.interests_of value <> [] /\
  Popup.interests_of [] = [[]] /\
  Popup.on_click value locate reverse recommend
    = Popup.request_and_show (Popup.interests_of value) locate reverse recommend.
Proof.
  repeat split; [apply interests_of_non_empty|apply on_click_request_and_show].
Qed.

(** X25: after a click the loading indicator is hidden again, however the
    three requests end. *)
Theorem popup_loading_is_hidden value locate reverse recommend st :
  Popup.loading_display (snd (Popup.on_click value locate reverse recommend st))
    = js "none".
Proof.
  rewrite on_click_request_and_show. run_popup.
  destruct locate as [[]|e]; cbn -[get_field js Popup.error_alert];
    [|destruct (Popup.error_alert e); reflexivity].
  destruct reverse as [data|e]; cbn -[get_field js Popup.error_alert];
    [|destruct (Popup.error_alert e); reflexivity].
  destruct (get_field data _) as [address|e]; cbn -[get_field js Popup.error_alert];
    [|destruct (Popup.error_alert e); reflexivity].
  destruct (get_field address _) as [zip|e]; cbn -[get_field js Popup.error_alert];
    [|destruct (Popup.error_alert e); reflexivity].
  destruct (recommend zip _) as [[ok body]|e];
    cbn -[get_field js Popup.error_alert Popup.value_replace_line_feeds];
    [|destruct (Popup.error_alert e); reflexivity].
  destruct ok; cbn -[get_field js Popup.error_alert Popup.value_replace_line_feeds].
  - destruct (get_field body _) as [recs|e];
      cbn -[get_field js Popup.error_alert Popup.value_replace_line_feeds];
      [|destruct (Popup.error_alert e); reflexivity].
    destruct (Popup.value_replace_line_feeds recs) as [html|e];
      cbn -[js Popup.error_alert]; [reflexivity|].
    destruct (Popup.error_alert e); reflexivity.
  - destruct (get_field body _) as [err|e]; cbn -[js Popup.error_alert];
      [reflexivity|destruct (Popup.error_alert e); reflexivity].
Qed.


(** ** The lines the parser counts *)

Section CountedLines.

Import CardApp.

Lemma split_no_line_feed s :
  List.Forall (fun l => no_line_feed l = true) (split 10 s).
Proof.
  induction s as [|c s IH]; simpl; [repeat constructor|].
  destruct (c =? 10) eqn:Hc; [constructor; [reflexivity|assumption]|].
  destruct (split 10 s) as [|l ls]; [repeat constructor; simpl; now rewrite Hc|].
  inversion IH; subst. constructor; [|assumption].
  unfold no_line_feed in *. simpl. now rewrite Hc.
Qed.

Lemma unlines_split s : unlines (split 10 s) = s.
Proof.
  induction s as [|c s IH]; simpl; [reflexivity|].
  pose proof (split_cons_nonempty 10 s) as Hne.
  destruct (c =? 10) eqn:Hc.
  - apply N.eqb_eq in Hc. subst c.
    destruct (split 10 s) as [|l ls]; [contradiction|].
    change (unlines ([] :: l :: ls)) with ([] ++ 10 :: unlines (l :: ls)).
    now rewrite IH.
  - destruct (split 10 s) as [|l ls]; [contradiction|].
    destruct ls as [|l2 ls].
    + simpl in *. now rewrite IH.
    + change (unlines ((c :: l) :: l2 :: ls)) with (c :: (l ++ 10 :: unlines (l2 :: ls))).
      change (unlines (l :: l2 :: ls)) with (l ++ 10 :: unlines (l2 :: ls)) in IH.
      now rewrite IH.
Qed.

Lemma split_unlines ls :
  ls <> [] -> List.Forall (fun l => no_line_feed l = true) ls ->
  split 10 (unlines ls) = ls.
Proof.
  intros Hne Hall. induction Hall as [|l ls Hl Hall IH]; [contradiction|].
  destruct ls as [|l2 ls].
  - simpl. now apply split_no_separator.
  - change (unlines (l :: l2 :: ls)) with (l ++ 10 :: unlines (l2 :: ls)).
    rewrite split_app, (split_no_separator 10 l Hl), IH by discriminate.
    reflexivity.
Qed.

Lemma lines_of_split text : lines_of text (split 10 text).
Proof.
  split; [apply split_cons_nonempty|].
  split; [apply split_no_line_feed|apply unlines_split].
Qed.

Lemma lines_of_unique text ls : lines_of text ls -> ls = split 10 text.
Proof.
  intros (Hne & Hall & <-). symmetry. now apply split_unlines.
Qed.

Lemma trim_nil_white l : trim l = [] <-> white l = true.
Proof.
  split; [|apply trim_white].
  unfold trim, white. intros Hnil.
  destruct (trimStart_split l) as (w1 & Hl & Hw1).
  destruct (trimEnd_split (trimStart l)) as (w2 & Hs & Hw2).
  rewrite Hnil in Hs. simpl in Hs.
  rewrite Hl, Hs, forallb_app, Hw1, Hw2. reflexivity.
Qed.

Lemma non_empty_lines_visible text :
  non_empty_lines text = visible_lines (split 10 text).
Proof.
  unfold non_empty_lines, visible_lines. apply List.filter_ext. intros l.
  f_equal. destruct (white l) eqn:Hw.
  - apply eqb_nil. now apply trim_nil_white.
  - destruct (eqb (trim l) []) eqn:He; [|reflexivity].
    apply eqb_nil, trim_nil_white in He. congruence.
Qed.

End CountedLines.

(** C2: the lines of a block are the pieces between its line feeds, and the
    lines the parser drops are those that are empty once trimmed, which are
    the lines of white space only.  The parser answers [null] exactly when
    fewer than two of the lines hold more than white space, and with a
    record exactly when two or more do, whatever else the block holds.  A
    title followed by a line of one space and an empty line gives
    [null]. *)
Theorem null_iff_fewer_than_two_lines text :
  (exists ls,
     lines_of text ls /\
     (forall ls', lines_of text ls' -> ls' = ls) /\
     (CardApp.parseRecommendation text = Normal None <->
      (length (visible_lines ls) < 2)%nat) /\
     ((exists rec, CardApp.parseRecommendation text = Normal (Some rec)) <->
      (2 <= length (visible_lines ls))%nat)) /\
  (forall l, trim l = [] <-> white l = true) /\
  CardApp.parseRecommendation (unlines [js "Title"; js " "; []]) = Normal None.
Proof.
  split; [|split; [apply trim_nil_white|reflexivity]].
  exists (split 10 text).
  split; [apply lines_of_split|].
  split; [intros ls' Hls'; now apply lines_of_unique|].
  rewrite <- non_empty_lines_visible.
  destruct (length (CardApp.non_empty_lines text) <? 2)%nat eqn:Hlen.
  - pose proof (parseRecommendation_rejects text Hlen) as Hnull.
    apply Nat.ltb_lt in Hlen. rewrite Hnull.
    split; split; try tauto; try lia.
    intros (rec & Hrec). discriminate.
  - destruct (parseRecommendation_accepts text Hlen) as (line0 & _ & Hrec).
    apply Nat.ltb_ge in Hlen. rewrite Hrec.
    split; split; try lia; try discriminate.
    intros _. eexists. reflexivity.
Qed.

(** ** The percentage of the relevance badge *)

(** X28: for a record whose relevance score is a binary64 value between 0
    and 1 other than zero, the badge reads [Relevance: N%] with [N] an
    integer from 0 to 100: the integer nearest to the binary64 product of
    the score and 100, the larger one of two that are as near.  The score
    0.876 gives 88%. *)
Theorem unit_score_percentage rec score :
  CardApp.relevance_score rec = Some score ->
  valid_binary 53 1024 score = true ->
  truthy_number score = true ->
  SFleb (S754_zero false) score = true ->
  SFleb score one = true ->
  (exists n,
     CardApp.relevance_badge rec
       = CardApp.Element (js "Relevance: " ++ decimal n ++ js "%") /\
     (0 <= n <= 100)%Z /\
     (mul score hundred = S754_zero false /\ n = 0%Z \/
      exists m e, mul score hundred = S754_finite false m e /\ is_nearest m e n)) /\
  CardApp.relevance_badge (card_with_score (Some score_0_876))
    = CardApp.Element (js "Relevance: 88%").
Proof.
  intros Hscore Hvalid Htruthy Hlow Hhigh. split; [|reflexivity].
  destruct (percentage_in_range score Hvalid Htruthy Hlow Hhigh) as (n & Htext & Hn & Hnear).
  exists n. split; [|split; assumption].
  unfold CardApp.relevance_badge. now rewrite Hscore, Htruthy, Htext.
Qed.

Lemma unit_score_percentage_witness :
  (exists n,
     CardApp.relevance_badge (card_with_score (Some score_0_876))
       = CardApp.Element (js "Relevance: " ++ decimal n ++ js "%") /\
     (0 <= n <= 100)%Z /\
     (mul score_0_876 hundred = S754_zero false /\ n = 0%Z \/
      exists m e, mul score_0_876 hundred = S754_finite false m e /\ is_nearest m e n)) /\
  CardApp.relevance_badge (card_with_score (Some score_0_876))
    = CardApp.Element (js "Relevance: 88%").
Proof.
  exact (unit_score_percentage (card_with_score (Some score_0_876)) score_0_876
           eq_refl eq_refl eq_refl eq_refl eq_refl).
Defined.

(** X29: a score outside that range is shown as it comes, without being
    clamped.  The score [1e19] gives [Relevance: 1e+21%], as [toFixed]
    answers in exponent notation from [10^21] on; [-0.005], whose product
    with 100 is [-0.5], gives [Relevance: -1%]; and an infinite score gives
    [Relevance: Infinity%]. *)
Theorem out_of_range_scores_are_shown :
  mul (S754_finite false 4882812500000000 11) hundred
    = S754_finite false 7629394531250000 17 /\
  (Z.pos 4882812500000000 * 2 ^ 11 = 10 ^ 19)%Z /\
  CardApp.relevance_badge
    (card_with_score (Some (S754_finite false 4882812500000000 11)))
    = CardApp.Element (js "Relevance: 1e+21%") /\
  mul (S754_finite true 5764607523034235 (-60)) hundred
    = S754_finite true 4503599627370496 (-53) /\
  CardApp.relevance_badge
    (card_with_score (Some (S754_finite true 5764607523034235 (-60))))
    = CardApp.Element (js "Relevance: -1%") /\
  CardApp.relevance_badge (card_with_score (Some (S754_infinity false)))
    = CardApp.Element (js "Relevance: Infinity%").
Proof.
  repeat split; vm_compute; reflexivity.
Qed.
